(** * Pin validation and auto-fix of the HardcoreAI backend

    A shallow embedding of the pin handling code of
    [hardcore-desktop/bundled/backend]:

    - [hal_adapter.py]  : [IntelligentHAL] (board specifications, pin
      parsing, per-pin validation, conflict detection, auto-fix);
    - [pin_mapper.py]   : [IntelligentPinMapper] (pin assignment with a
      usage table kept in the mapper object);
    - [board_pinouts.py]: [get_board_pinout] (pinout lookup for diagrams).

    Python dictionaries are modelled as [gmap]s, Python sets as [gset]s,
    Python [str] values as [string]s whose characters are read as the code
    points 0..255, and Python integers as [N] or [Z]. *)

From Stdlib Require Import String Ascii NArith ZArith List.
From Stdlib Require Import DecimalString DecimalPos DecimalN.
From stdpp Require Import base option gmap sets list strings sorting.

Open Scope string_scope.
Open Scope list_scope.
Open Scope N_scope.

(** ** Python text primitives used by the backend *)

Module PyText.

(** Code point of a character. *)
Definition code (c : ascii) : N := N_of_ascii c.

(** [\d] of the [re] module on [str] patterns: the decimal digits. Among the
    code points below 256 these are exactly ['0'..'9']. *)
Definition is_digit (c : ascii) : bool :=
  (48 <=? code c) && (code c <=? 57).

(** [\w] of the [re] module on [str] patterns: alphanumeric code points and
    the underscore. Below 256 the alphanumeric ones are the ASCII letters
    and digits, the ordinal indicators, superscript digits, micro sign,
    vulgar fractions and the accented Latin letters. *)
Definition is_word (c : ascii) : bool :=
  let n := code c in
  ((48 <=? n) && (n <=? 57)) || ((65 <=? n) && (n <=? 90)) ||
  ((97 <=? n) && (n <=? 122)) || (n =? 95) ||
  (n =? 170) || (n =? 178) || (n =? 179) || (n =? 181) || (n =? 185) ||
  (n =? 186) || ((188 <=? n) && (n <=? 190)) ||
  ((192 <=? n) && (n <=? 214)) || ((216 <=? n) && (n <=? 246)) ||
  (248 <=? n).

(** Longest prefix of [s] whose characters satisfy [p] (a greedy [p+]). *)
Fixpoint take_while (p : ascii -> bool) (s : string) : string :=
  match s with
  | String c t => if p c then String c (take_while p t) else EmptyString
  | EmptyString => EmptyString
  end.

(** Rest of [s] after the longest prefix satisfying [p]. *)
Fixpoint drop_while (p : ascii -> bool) (s : string) : string :=
  match s with
  | String c t => if p c then drop_while p t else s
  | EmptyString => EmptyString
  end.

(** [strip_prefix p s = Some r] when [s = p ++ r]. *)
Fixpoint strip_prefix (p s : string) : option string :=
  match p, s with
  | EmptyString, _ => Some s
  | String a p', String b s' =>
      if Ascii.eqb a b then strip_prefix p' s' else None
  | String _ _, EmptyString => None
  end.

(** [sub in s] for two [str] values. *)
Fixpoint contains (sub s : string) : bool :=
  match strip_prefix sub s with
  | Some _ => true
  | None =>
      match s with
      | String _ t => contains sub t
      | EmptyString => false
      end
  end.

(** [re.search(r'\d+', s)]: the leftmost, longest run of digits. *)
Fixpoint search_digits (s : string) : option string :=
  match s with
  | EmptyString => None
  | String c t =>
      if is_digit c then Some (take_while is_digit s) else search_digits t
  end.

(** [re.search(r'for (\w+)', s)], returning [group(1)]: the word that
    follows the leftmost occurrence of ["for "] that is followed by a word
    character. *)
Fixpoint search_for_word (s : string) : option string :=
  match s with
  | EmptyString => None
  | String _ t =>
      match strip_prefix "for " s with
      | Some r =>
          match take_while is_word r with
          | EmptyString => search_for_word t
          | w => Some w
          end
      | None => search_for_word t
      end
  end.

(** Every character of [s] satisfies [p]. *)
Fixpoint all_chars (p : ascii -> bool) (s : string) : bool :=
  match s with
  | String c t => p c && all_chars p t
  | EmptyString => true
  end.

Definition no_digit (c : ascii) : bool := negb (is_digit c).

(** A run of digits that ends the string, or is followed by a character
    that is not a digit, is what [\d+] matches at its start. *)
Definition ends_run (post : string) : Prop :=
  match post with
  | EmptyString => True
  | String c _ => is_digit c = false
  end.

(** A name made of word characters only is what [(\w+)] captures. *)
Definition is_word_name (c : string) : Prop :=
  c <> "" /\ all_chars is_word c = true.

(** Value of a decimal digit. *)
Definition digit_val (c : ascii) : N := code c - 48.

(** [int(s)] on a run of decimal digits (CPython's configurable cap on the
    number of digits of such a conversion is not modelled). *)
Definition int_of_digits (s : string) : N :=
  fold_left (fun acc c => 10 * acc + digit_val c) (list_ascii_of_string s) 0.

(** [str(n)] for a non-negative [int]. *)
Definition str_of_N (n : N) : string := NilZero.string_of_uint (N.to_uint n).

(** [str(z)] for an [int]. *)
Definition str_of_Z (z : Z) : string := NilZero.string_of_int (Z.to_int z).

(** [sep.join(l)]. *)
Fixpoint join (sep : string) (l : list string) : string :=
  match l with
  | [] => ""
  | [x] => x
  | x :: r => x +:+ sep +:+ join sep r
  end.

(** [repr] of a list of non-negative [int]s, as an f-string prints it. *)
Definition repr_list (l : list N) : string :=
  "[" +:+ join ", " (map str_of_N l) +:+ "]".

(** [range(a, b)]. *)
Definition range (a b : N) : list N :=
  map (fun i => a + N.of_nat i) (seq 0 (N.to_nat (b - a))).

(** [s.lower()] on code points below 256: the ASCII capitals and the
    accented Latin capitals move up by 32. *)
Definition lower_char (c : ascii) : ascii :=
  let n := code c in
  if ((65 <=? n) && (n <=? 90)) ||
     ((192 <=? n) && (n <=? 214)) || ((216 <=? n) && (n <=? 222))
  then ascii_of_N (n + 32) else c.

Fixpoint lower (s : string) : string :=
  match s with
  | String c t => String (lower_char c) (lower t)
  | EmptyString => EmptyString
  end.

(** White space as [str.strip()] sees it, below 256. *)
Definition is_space (c : ascii) : bool :=
  let n := code c in
  ((9 <=? n) && (n <=? 13)) || ((28 <=? n) && (n <=? 32)) ||
  (n =? 133) || (n =? 160).

Definition string_rev (s : string) : string :=
  string_of_list_ascii (rev (list_ascii_of_string s)).

(** [s.strip()]. *)
Definition strip (s : string) : string :=
  string_rev (drop_while is_space (string_rev (drop_while is_space s))).

(** [s] is empty or starts with a character that is not white space. *)
Definition no_space_ahead (s : string) : Prop :=
  match s with
  | EmptyString => True
  | String c _ => is_space c = false
  end.

(** [s] has no white space at either end. *)
Definition trimmed (s : string) : Prop :=
  no_space_ahead s /\ no_space_ahead (string_rev s).

(** The line feed character, as a string. *)
Definition nl : string := String (ascii_of_N 10) "".

(** [s.split("\n")]: the pieces between line feeds, at least one. *)
Fixpoint split_lines (s : string) : list string :=
  match s with
  | EmptyString => [""]
  | String c t =>
      if Ascii.eqb c (ascii_of_N 10) then "" :: split_lines t
      else match split_lines t with
           | x :: r => String c x :: r
           | [] => [String c ""]
           end
  end.

(** [s.startswith(p)]. *)
Definition startswith (p s : string) : bool :=
  match strip_prefix p s with
  | Some _ => true
  | None => false
  end.


(** [s.upper()] for a string of ASCII code points: the small letters move
    down by 32.  Above 127 [str.upper] leaves the range of one code point
    per character, so the functions that call it take it as a parameter;
    this is its instance for ASCII texts. *)
Definition upper_ascii_char (c : ascii) : ascii :=
  let n := code c in
  if (97 <=? n) && (n <=? 122) then ascii_of_N (n - 32) else c.

Fixpoint upper_ascii (s : string) : string :=
  match s with
  | String c t => String (upper_ascii_char c) (upper_ascii t)
  | EmptyString => EmptyString
  end.

(** A string or an integer, where the code accepts both (the value under
    ["mcu_pin"], the entries of a pinout column). *)
Inductive PyVal :=
| PyStr (s : string)
| PyInt (z : Z).

(** [str(v)]. *)
Definition py_str (v : PyVal) : string :=
  match v with
  | PyStr s => s
  | PyInt z => str_of_Z z
  end.

End PyText.

(** ** [hal_adapter.py]: the hardware abstraction layer *)

Module HAL.
Import PyText.

(** One entry of [IntelligentHAL.BOARD_SPECS]. *)
Record BoardSpec := {
  available_gpio : list N;
  pwm_capable : list N;
  adc_capable : list N;
  i2c : gmap string N;
  reserved : list N;
  default_led : N
}.

Definition esp32_spec : BoardSpec := {|
  available_gpio := range 0 40;
  pwm_capable := [2; 4; 5; 12; 13; 14; 15; 16; 17; 18; 19; 21; 22; 23; 25;
                  26; 27; 32; 33];
  adc_capable := [32; 33; 34; 35; 36; 39];
  i2c := <["SDA" := 21]> (<["SCL" := 22]> ∅);
  reserved := [0; 1; 6; 7; 8; 9; 10; 11];
  default_led := 2
|}.

Definition arduino_nano_spec : BoardSpec := {|
  available_gpio := [2; 3; 4; 5; 6; 7; 8; 9; 10; 11; 12; 13];
  pwm_capable := [3; 5; 6; 9; 10; 11];
  adc_capable := [14; 15; 16; 17; 18; 19];
  i2c := <["SDA" := 18]> (<["SCL" := 19]> ∅);
  reserved := [0; 1];
  default_led := 13
|}.

Definition arduino_uno_spec : BoardSpec := {|
  available_gpio := [2; 3; 4; 5; 6; 7; 8; 9; 10; 11; 12; 13];
  pwm_capable := [3; 5; 6; 9; 10; 11];
  adc_capable := [14; 15; 16; 17; 18; 19];
  i2c := <["SDA" := 18]> (<["SCL" := 19]> ∅);
  reserved := [0; 1];
  default_led := 13
|}.

Definition BOARD_SPECS : gmap string BoardSpec :=
  <["esp32" := esp32_spec]>
    (<["arduino_nano" := arduino_nano_spec]>
       (<["arduino_uno" := arduino_uno_spec]> ∅)).

(** The fields of an [IntelligentHAL] object. *)
Record IntelligentHAL := {
  board_type : string;
  spec : BoardSpec
}.

(** [IntelligentHAL.__init__]: an unregistered board gets the esp32 entry,
    [BOARD_SPECS.get(board_type, BOARD_SPECS["esp32"])]. *)
Definition init (board_type : string) : IntelligentHAL :=
  {| board_type := board_type;
     spec := default esp32_spec (BOARD_SPECS !! board_type) |}.

(** [@dataclass ValidationIssue]. *)
Record ValidationIssue := {
  type : string;
  severity : string;
  message : string;
  suggested_fix : option string
}.

(** A dictionary of a ["pins"] list; [None] is a missing key. *)
Record PinEntry := {
  mcu_pin : option PyVal;
  pin_type : option string
}.

(** A dictionary of the ["connections"] list; a missing ["pins"] key is the
    empty list. *)
Record Conn := {
  component : option string;
  pins : list PinEntry
}.

(** [_parse_pin_number]: the first run of digits, or 0 when there is none. *)
Definition _parse_pin_number (pin_str : string) : N :=
  match search_digits pin_str with
  | Some m => int_of_digits m
  | None => 0
  end.

Definition invalid_pin_issue (self : IntelligentHAL) (pin : N) : ValidationIssue :=
  {| type := "invalid_pin";
     severity := "critical";
     message := "Pin " +:+ str_of_N pin +:+ " not available on " +:+ board_type self;
     suggested_fix :=
       Some ("Use pin from: " +:+ repr_list (take 5 (available_gpio (spec self)))) |}.

Definition reserved_pin_issue (pin : N) : ValidationIssue :=
  {| type := "reserved_pin";
     severity := "warning";
     message := "Pin " +:+ str_of_N pin +:+ " is reserved (boot/flash)";
     suggested_fix := Some "Use different pin if possible" |}.

Definition wrong_capability_issue (cap : string) (caps : list N) (pin : N)
    (component : string) : ValidationIssue :=
  {| type := "wrong_capability";
     severity := "critical";
     message := "Pin " +:+ str_of_N pin +:+ " not " +:+ cap +:+ "-capable for " +:+ component;
     suggested_fix := Some ("Use " +:+ cap +:+ " pin: " +:+ repr_list (take 3 caps)) |}.

Definition conflict_issue (pin : N) : ValidationIssue :=
  {| type := "conflict";
     severity := "critical";
     message := "Pin " +:+ str_of_N pin +:+ " used by multiple components";
     suggested_fix := Some "Reassign one component to different pin" |}.

(** [_validate_pin]. *)
Definition _validate_pin (self : IntelligentHAL) (pin : N)
    (pin_type component : string) : list ValidationIssue :=
  if bool_decide (pin ∉ available_gpio (spec self)) then
    [invalid_pin_issue self pin]
  else
    (if bool_decide (pin ∈ reserved (spec self))
     then [reserved_pin_issue pin] else []) ++
    (if String.eqb pin_type "PWM" && bool_decide (pin ∉ pwm_capable (spec self))
     then [wrong_capability_issue "PWM" (pwm_capable (spec self)) pin component]
     else []) ++
    (if String.eqb pin_type "ADC" && bool_decide (pin ∉ adc_capable (spec self))
     then [wrong_capability_issue "ADC" (adc_capable (spec self)) pin component]
     else []).

(** The local variables of the validation loop of [validate_and_resolve]. *)
Record VState := {
  issues : list ValidationIssue;
  resolved : gmap string N;
  used_pins : gset N
}.

Definition vinit : VState :=
  {| issues := []; resolved := ∅; used_pins := ∅ |}.

(** Body of the inner loop [for pin in pins]. *)
Definition validate_pin_entry (self : IntelligentHAL) (component : string)
    (st : VState) (pin : PinEntry) : VState :=
  let mcu_pin_str := py_str (default (PyStr "0") (mcu_pin pin)) in
  let pin_type := default "GPIO" (pin_type pin) in
  let mcu_pin := _parse_pin_number mcu_pin_str in
  let pin_issues := _validate_pin self mcu_pin pin_type component in
  let issues1 := issues st ++ pin_issues in
  let issues2 :=
    if bool_decide (mcu_pin ∈ used_pins st)
    then issues1 ++ [conflict_issue mcu_pin] else issues1 in
  {| issues := issues2;
     resolved := <[component := mcu_pin]> (resolved st);
     used_pins := {[mcu_pin]} ∪ used_pins st |}.

(** Body of the outer loop [for conn in connections]. *)
Definition validate_conn (self : IntelligentHAL) (st : VState) (conn : Conn)
    : VState :=
  let component := default "Unknown" (component conn) in
  fold_left (validate_pin_entry self component) (pins conn) st.

(** The validation loop of [validate_and_resolve]. *)
Definition validate (self : IntelligentHAL) (connections : list Conn) : VState :=
  fold_left (validate_conn self) connections vinit.

(** The local variables of [_auto_fix]. *)
Record FState := {
  fixed_resolved : gmap string N;
  fix_used : gset N;
  remaining_issues : list ValidationIssue
}.

(** [for p in caps: if p not in used_pins: ...; break]. *)
Definition assign_first_free (caps : list N) (component : string)
    (st : FState) : FState :=
  match find (fun p => bool_decide (p ∉ fix_used st)) caps with
  | Some p =>
      {| fixed_resolved := <[component := p]> (fixed_resolved st);
         fix_used := {[p]} ∪ fix_used st;
         remaining_issues := remaining_issues st |}
  | None => st
  end.

Definition auto_fixed_issue (issue : ValidationIssue) : ValidationIssue :=
  {| type := "auto_fixed";
     severity := "warning";
     message := "Auto-fixed: " +:+ message issue;
     suggested_fix := None |}.

Definition keep_issue (issue : ValidationIssue) (st : FState) : FState :=
  {| fixed_resolved := fixed_resolved st;
     fix_used := fix_used st;
     remaining_issues := remaining_issues st ++ [issue] |}.

(** Body of the loop [for issue in issues] of [_auto_fix]. *)
Definition auto_fix_issue (self : IntelligentHAL) (st : FState)
    (issue : ValidationIssue) : FState :=
  if negb (String.eqb (severity issue) "critical") then keep_issue issue st
  else if String.eqb (type issue) "wrong_capability" then
    match search_for_word (message issue) with
    | Some component =>
        if contains "PWM" (message issue) then
          assign_first_free (pwm_capable (spec self)) component st
        else if contains "ADC" (message issue) then
          assign_first_free (adc_capable (spec self)) component st
        else st
    | None => st
    end
  else if String.eqb (type issue) "invalid_pin" then
    keep_issue (auto_fixed_issue issue) st
  else st.

(** [_auto_fix]; its [connections] argument is not used by the code. *)
Definition _auto_fix (self : IntelligentHAL) (resolved : gmap string N)
    (issues : list ValidationIssue) (connections : list Conn)
    : gmap string N * list ValidationIssue :=
  let st0 := {| fixed_resolved := resolved;
                fix_used := map_img resolved;
                remaining_issues := [] |} in
  let st := fold_left (auto_fix_issue self) issues st0 in
  (fixed_resolved st, remaining_issues st).

Definition is_critical (i : ValidationIssue) : bool :=
  String.eqb (severity i) "critical".

(** [validate_and_resolve]; [connections] is [pin_json.get("connections", [])].
    No method of the class assigns to a field of [self] or to [BOARD_SPECS],
    and [issues], [resolved] and [used_pins] are locals of the call, so the
    object is passed read-only and no state is returned. *)
Definition validate_and_resolve (self : IntelligentHAL) (connections : list Conn)
    : gmap string N * list ValidationIssue :=
  let st := validate self connections in
  if existsb is_critical (issues st)
  then _auto_fix self (resolved st) (issues st) connections
  else (resolved st, issues st).

(** *** Vocabulary of the properties

    A binding is one pin entry as the validation loop sees it: the component
    of its connection, the parsed pin number and the pin type. *)
Record Binding := {
  b_component : string;
  b_pin : N;
  b_type : string
}.

Definition binding_of (component : string) (pin : PinEntry) : Binding :=
  {| b_component := component;
     b_pin := _parse_pin_number (py_str (default (PyStr "0") (mcu_pin pin)));
     b_type := default "GPIO" (pin_type pin) |}.

(** The bindings of an input, in declaration order. *)
Definition bindings (connections : list Conn) : list Binding :=
  flat_map (fun conn =>
              map (binding_of (default "Unknown" (component conn))) (pins conn))
           connections.

(** The issues raised against one binding when the pins of [seen] are taken
    by the bindings before it. *)
Definition binding_issues (self : IntelligentHAL) (seen : gset N) (b : Binding)
    : list ValidationIssue :=
  _validate_pin self (b_pin b) (b_type b) (b_component b) ++
  (if bool_decide (b_pin b ∈ seen) then [conflict_issue (b_pin b)] else []).

(** The issues of a run of bindings, block after block. *)
Fixpoint issues_from (self : IntelligentHAL) (seen : gset N) (bs : list Binding)
    : list ValidationIssue :=
  match bs with
  | [] => []
  | b :: r => binding_issues self seen b ++ issues_from self ({[b_pin b]} ∪ seen) r
  end.

(** The pin of the last binding of component [c]. *)
Fixpoint last_pin (c : string) (bs : list Binding) : option N :=
  match bs with
  | [] => None
  | b :: r =>
      match last_pin c r with
      | Some p => Some p
      | None => if String.eqb (b_component b) c then Some (b_pin b) else None
      end
  end.

(** The validation loop body on a binding. *)
Definition validate_binding (self : IntelligentHAL) (st : VState) (b : Binding)
    : VState :=
  {| issues := issues st ++ binding_issues self (used_pins st) b;
     resolved := <[b_component b := b_pin b]> (resolved st);
     used_pins := {[b_pin b]} ∪ used_pins st |}.

(** The component a Critical wrong_capability issue makes the auto-fix pass
    reassign, if any. *)
Definition fix_target (i : ValidationIssue) : option string :=
  if is_critical i && String.eqb (type i) "wrong_capability"
  then search_for_word (message i) else None.

Definition not_critical (i : ValidationIssue) : Prop := is_critical i = false.

(** [p] is the pin the scan [for p in caps: if p not in used: ...; break]
    stops at: the first one of [caps] that is not in [used]. *)
Definition first_free (caps : list N) (used : gset N) (p : N) : Prop :=
  exists l1 l2,
    caps = l1 ++ p :: l2 /\ (p ∉ used) /\ forall q, q ∈ l1 -> q ∈ used.

(** The conflict issues about pin [p] in a list of issues. *)
Definition conflicts_on (p : N) (l : list ValidationIssue) : nat :=
  length (List.filter
            (fun i => String.eqb (type i) "conflict" &&
                      (_parse_pin_number (message i) =? p)) l).

(** The bindings on pin [p]. *)
Definition bindings_on (p : N) (bs : list Binding) : nat :=
  length (List.filter (fun b => b_pin b =? p) bs).

(** A connection with a single pin entry. *)
Definition one_pin (c : string) (pin : PyVal) (t : string) : Conn :=
  {| component := Some c;
     pins := [ {| mcu_pin := Some pin; pin_type := Some t |} ] |}.

(** *** Inputs used in the examples *)

(** Two components on the same valid pin. *)
Definition shared_pin_input : list Conn :=
  [one_pin "LED" (PyInt 2) "GPIO"; one_pin "Servo" (PyInt 2) "PWM"].

(** A valid binding next to a PWM binding on a pin without PWM, whose
    component name has two words. *)
Definition servo_input : list Conn :=
  [one_pin "Servo" (PyInt 4) "GPIO"; one_pin "Servo Motor" (PyInt 34) "PWM"].

(** A PWM binding on a pin the board does not have. *)
Definition invalid_pwm_input : list Conn :=
  [one_pin "Servo" (PyInt 50) "PWM"].

(** An ADC binding on a pin without ADC, free ADC pins left. *)
Definition fixable_adc_input : list Conn :=
  [one_pin "Thermistor" (PyInt 7) "ADC"].

(** Every PWM pin of the esp32 claimed by a valid PWM binding, then one more
    PWM binding on a pin without PWM. *)
Definition exhausted_pwm_input : list Conn :=
  map (fun p => one_pin ("P" +:+ str_of_N p) (PyInt (Z.of_N p)) "PWM")
      (pwm_capable esp32_spec)
  ++ [one_pin "Extra" (PyInt 34) "PWM"].

(** Three components on pin 4, and two on the missing pin 50. *)
Definition triple_input : list Conn :=
  [one_pin "A" (PyInt 4) "GPIO"; one_pin "B" (PyInt 4) "GPIO";
   one_pin "C" (PyInt 4) "GPIO"].

Definition invalid_pair_input : list Conn :=
  [one_pin "A" (PyInt 50) "GPIO"; one_pin "B" (PyInt 50) "GPIO"].

(** A single binding on a reserved pin. *)
Definition flash_input : list Conn := [one_pin "Flash" (PyInt 6) "GPIO"].


(** A pin given by a name without digits. *)
Definition no_digit_input : list Conn :=
  [one_pin "Led" (PyStr "LED_BUILTIN") "GPIO"].

(** One component with two pin entries, both on valid pins. *)
Definition two_pin_input : list Conn :=
  [ {| component := Some "Motor";
       pins := [ {| mcu_pin := Some (PyInt 4); pin_type := Some "GPIO" |};
                 {| mcu_pin := Some (PyInt 5); pin_type := Some "GPIO" |} ] |} ].


(** *** Further vocabulary *)

(** What the auto-fix loop appends to [remaining_issues] for an issue. *)
Definition returned_issue (i : ValidationIssue) : list ValidationIssue :=
  if negb (is_critical i) then [i]
  else if String.eqb (type i) "invalid_pin" then [auto_fixed_issue i]
  else [].

(** Invariant of the auto-fix loop over the mapping [m0] it starts from:
    every pin of the mapping is in the used pins, two components on the
    same pin were on it in [m0], and a pin that is not the one of [m0] is a
    PWM- or ADC-capable pin. *)
Definition fix_inv (self : IntelligentHAL) (m0 : gmap string N) (st : FState)
    : Prop :=
  (forall c p, fixed_resolved st !! c = Some p -> p ∈ fix_used st) /\
  (forall c1 c2 p, c1 <> c2 ->
     fixed_resolved st !! c1 = Some p -> fixed_resolved st !! c2 = Some p ->
     m0 !! c1 = Some p /\ m0 !! c2 = Some p) /\
  (forall c p, fixed_resolved st !! c = Some p ->
     m0 !! c = Some p \/ p ∈ pwm_capable (spec self) \/ p ∈ adc_capable (spec self)).

(** Two valid bindings with one-word names and a PWM binding on a pin
    without PWM. *)
Definition motor_input : list Conn :=
  [one_pin "LED" (PyInt 2) "GPIO"; one_pin "Motor" (PyInt 34) "PWM"].


(** *** [generate_pins_header] *)

(** The order [sorted] puts the items [(component, pin)] in: by component,
    compared code point by code point, then by pin. *)
Definition item_le (a b : string * N) : Prop :=
  String.ltb (fst a) (fst b) = true \/ (fst a = fst b /\ snd a <= snd b).

#[export] Instance item_le_dec a b : Decision (item_le a b).
Proof. unfold item_le. apply _. Defined.

(** [sorted(resolved_pins.items())]. *)
Definition sorted_items (resolved_pins : gmap string N) : list (string * N) :=
  merge_sort item_le (map_to_list resolved_pins).

Section Header.

(** [str.upper], which leaves the code points below 256 for some of them,
    is a parameter of the model. *)
Variable upper : string -> string.

(** The line [#define {component.upper()}_PIN {pin}]. *)
Definition define_of (item : string * N) : string :=
  "#define " +:+ upper (fst item) +:+ "_PIN " +:+ str_of_N (snd item).

(** The list [lines] of [generate_pins_header]. *)
Definition pins_header_lines (self : IntelligentHAL)
    (resolved_pins : gmap string N) : list string :=
  ["/*";
   " * Resolved Pin Definitions";
   " * Board: " +:+ upper (board_type self);
   " * Auto-generated by HardcoreAI IntelligentHAL";
   " */";
   "";
   "#ifndef RESOLVED_PINS_H";
   "#define RESOLVED_PINS_H";
   ""]
  ++ map define_of (sorted_items resolved_pins)
  ++ [""; "#endif // RESOLVED_PINS_H"; ""].

(** [generate_pins_header]. *)
Definition generate_pins_header (self : IntelligentHAL)
    (resolved_pins : gmap string N) : string :=
  join nl (pins_header_lines self resolved_pins).

End Header.

End HAL.

(** ** [pin_mapper.py]: pin assignment with a usage table *)

Module PinMapper.
Import PyText.

(** The mutable field [pin_usage] of an [IntelligentPinMapper]: pin number
    to the peripheral type that claimed it. The other field,
    [board_capabilities], is read into [board_pins], which no helper looks
    at, so it does not appear in the model. *)
Record IntelligentPinMapper := {
  pin_usage : gmap N string
}.

(** [__init__]: an empty usage table. *)
Definition init : IntelligentPinMapper := {| pin_usage := ∅ |}.

(** [reset]. *)
Definition reset (self : IntelligentPinMapper) : IntelligentPinMapper :=
  {| pin_usage := ∅ |}.

(** [for pin in l: if pin not in self.pin_usage: return pin], then the
    fallback [l[0]]; every list of the tables below is non-empty. *)
Definition first_unused (self : IntelligentPinMapper) (l : list N) : N :=
  match find (fun pin => bool_decide (pin_usage self !! pin = None)) l with
  | Some pin => pin
  | None => hd 0 l
  end.

Definition defaults : gmap string (list N) :=
  <["esp32" := [2; 4; 5; 18; 19; 21; 22; 23]]>
  (<["arduino_uno" := [2; 3; 4; 5; 6; 7; 8; 9; 10; 11; 12; 13]]>
  (<["arduino_mega" := [2; 3; 4; 5; 6; 7; 8; 9; 10; 11; 12; 13]]>
  (<["stm32" := [0; 1; 2; 3; 4; 5]]> ∅))).

(** [_find_best_gpio]. *)
Definition _find_best_gpio (self : IntelligentPinMapper) (board_type : string) : N :=
  first_unused self (default [2] (defaults !! board_type)).

Definition pwm_pins : gmap string (list N) :=
  <["esp32" := [2; 4; 5; 12; 13; 14; 15; 16; 17; 18; 19; 21; 22; 23]]>
  (<["arduino_uno" := [3; 5; 6; 9; 10; 11]]>
  (<["arduino_mega" := [2; 3; 4; 5; 6; 7; 8; 9; 10; 11; 12; 13]]>
  (<["stm32" := [0; 1; 2; 3]]> ∅))).

(** [_find_pwm_pin]. *)
Definition _find_pwm_pin (self : IntelligentPinMapper) (board_type : string) : N :=
  first_unused self (default [13] (pwm_pins !! board_type)).

Definition i2c_defaults : gmap string (gmap string N) :=
  <["esp32" := <["SDA" := 21]> (<["SCL" := 22]> ∅)]>
  (<["arduino_uno" := <["SDA" := 18]> (<["SCL" := 19]> ∅)]>
  (<["arduino_mega" := <["SDA" := 20]> (<["SCL" := 21]> ∅)]>
  (<["stm32" := <["SDA" := 9]> (<["SCL" := 8]> ∅)]> ∅))).

(** [_find_i2c_pins]. *)
Definition _find_i2c_pins (board_type : string) : gmap string N :=
  default (<["SDA" := 21]> (<["SCL" := 22]> ∅)) (i2c_defaults !! board_type).

Definition spi_esp32 : gmap string N :=
  <["MOSI" := 23]> (<["MISO" := 19]> (<["SCK" := 18]> (<["CS" := 5]> ∅))).

Definition spi_defaults : gmap string (gmap string N) :=
  <["esp32" := spi_esp32]>
  (<["arduino_uno" :=
       <["MOSI" := 11]> (<["MISO" := 12]> (<["SCK" := 13]> (<["CS" := 10]> ∅)))]>
  (<["arduino_mega" :=
       <["MOSI" := 51]> (<["MISO" := 50]> (<["SCK" := 52]> (<["CS" := 53]> ∅)))]>
  (<["stm32" :=
       <["MOSI" := 11]> (<["MISO" := 12]> (<["SCK" := 13]> (<["CS" := 10]> ∅)))]>
   ∅))).

(** [_find_spi_pins]. *)
Definition _find_spi_pins (board_type : string) : gmap string N :=
  default spi_esp32 (spi_defaults !! board_type).

Definition uart_esp32 : gmap string N := <["TX" := 1]> (<["RX" := 3]> ∅).

Definition uart_defaults : gmap string (gmap string N) :=
  <["esp32" := uart_esp32]>
  (<["arduino_uno" := <["TX" := 1]> (<["RX" := 0]> ∅)]>
  (<["arduino_mega" := <["TX" := 1]> (<["RX" := 0]> ∅)]>
  (<["stm32" := <["TX" := 2]> (<["RX" := 3]> ∅)]> ∅))).

(** [_find_uart_pins]. *)
Definition _find_uart_pins (board_type : string) : gmap string N :=
  default uart_esp32 (uart_defaults !! board_type).

(** The [if]/[elif] chain of [auto_assign_pins] that fills [assigned_pins];
    [d.update(m)] on the empty [d] is [m]. *)
Definition assigned_for (self : IntelligentPinMapper)
    (board_type peripheral_type : string) : gmap string N :=
  if String.eqb peripheral_type "led" then
    <["LED" := _find_best_gpio self board_type]> ∅
  else if String.eqb peripheral_type "dht22" || String.eqb peripheral_type "dht11" then
    <["DATA" := _find_best_gpio self board_type]> ∅
  else if String.eqb peripheral_type "servo" then
    <["SERVO" := _find_pwm_pin self board_type]> ∅
  else if String.eqb peripheral_type "i2c" then _find_i2c_pins board_type ∪ ∅
  else if String.eqb peripheral_type "spi" then _find_spi_pins board_type ∪ ∅
  else if String.eqb peripheral_type "uart" then _find_uart_pins board_type ∪ ∅
  else ∅.

(** [for role, pin in assigned_pins.items(): self.pin_usage[pin] = peripheral_type]. *)
Definition mark_used (peripheral_type : string) (assigned : gmap string N)
    (usage : gmap N string) : gmap N string :=
  map_fold (fun _ pin u => <[pin := peripheral_type]> u) usage assigned.

(** [auto_assign_pins]: the returned dictionary and the mapper after the
    call. The [requirements] argument is not read by the code. *)
Definition auto_assign_pins (self : IntelligentPinMapper)
    (board_type peripheral_type : string)
    : gmap string N * IntelligentPinMapper :=
  let assigned_pins := assigned_for self board_type peripheral_type in
  (assigned_pins,
   {| pin_usage := mark_used peripheral_type assigned_pins (pin_usage self) |}).


(** The peripheral types whose pin is looked up in the usage table. *)
Definition uses_table (peripheral_type : string) : bool :=
  String.eqb peripheral_type "led" || String.eqb peripheral_type "dht22" ||
  String.eqb peripheral_type "dht11" || String.eqb peripheral_type "servo".


(** [pin_counts] of [detect_conflicts]: one pass over the items of
    [pin_usage], [pin_counts[pin] = pin_counts.get(pin, 0) + 1]. *)
Definition pin_counts (self : IntelligentPinMapper) : gmap N nat :=
  map_fold (fun pin _ counts => <[pin := (default 0 (counts !! pin) + 1)%nat]> counts)
           ∅ (pin_usage self).

(** An entry of the list [detect_conflicts] returns. *)
Record Conflict := {
  conflict_pin : N;
  conflict_text : string;
  conflict_severity : string
}.

(** [detect_conflicts]: an entry for every pin counted more than once. The
    entries are listed in the order [map_to_list] gives the pins, not in
    the insertion order of the Python dictionary. *)
Definition detect_conflicts (self : IntelligentPinMapper) (board_type : string)
    : list Conflict :=
  flat_map (fun pc : N * nat =>
              if (1 <? snd pc)%nat
              then [ {| conflict_pin := fst pc;
                        conflict_text := "Pin " +:+ str_of_N (fst pc)
                                         +:+ " is assigned to multiple peripherals";
                        conflict_severity := "error" |} ]
              else [])
           (map_to_list (pin_counts self)).

Definition all_pins : gmap string (list N) :=
  <["esp32" := range 0 40]>
  (<["arduino_uno" := range 0 20]>
  (<["arduino_mega" := range 0 70]>
  (<["stm32" := range 0 50]> ∅))).

(** [_get_available_pins]. *)
Definition _get_available_pins (self : IntelligentPinMapper) (board_type : string)
    : list N :=
  List.filter (fun p => bool_decide (pin_usage self !! p = None))
              (default (range 0 40) (all_pins !! board_type)).

(** The dictionary [get_pin_usage_map] returns. *)
Record PinUsageMap := {
  map_used_pins : gmap N string;
  map_available_pins : list N;
  map_conflicts : list Conflict
}.

(** [get_pin_usage_map]. *)
Definition get_pin_usage_map (self : IntelligentPinMapper) (board_type : string)
    : PinUsageMap :=
  {| map_used_pins := pin_usage self;
     map_available_pins := _get_available_pins self board_type;
     map_conflicts := detect_conflicts self board_type |}.

(** The candidate lists of [_find_best_gpio] and [_find_pwm_pin] for a board. *)
Definition gpio_candidates (board_type : string) : list N :=
  default [2] (defaults !! board_type).

Definition pwm_candidates (board_type : string) : list N :=
  default [13] (pwm_pins !! board_type).

(** A pin no peripheral has claimed. *)
Definition unused (self : IntelligentPinMapper) (pin : N) : Prop :=
  pin_usage self !! pin = None.


(** The candidate list [auto_assign_pins] scans for a peripheral type that
    consults the usage table. *)
Definition candidates (board_type peripheral_type : string) : list N :=
  if String.eqb peripheral_type "servo" then pwm_candidates board_type
  else gpio_candidates board_type.

(** [p] is what the scan of the candidates [l] returns: a candidate; the
    first unused one when there is one; the first candidate otherwise. *)
Definition picks (self : IntelligentPinMapper) (l : list N) (p : N) : Prop :=
  p ∈ l /\
  ((exists q, q ∈ l /\ unused self q) ->
   unused self p /\
   exists l1 l2, l = l1 ++ p :: l2 /\ forall q, q ∈ l1 -> ~ unused self q) /\
  ((forall q, q ∈ l -> ~ unused self q) -> head l = Some p).

End PinMapper.

(** ** [board_pinouts.py]: pinout lookup for diagrams *)

Module BoardPinouts.
Import PyText.

(** A pinout dictionary: the registered ones have the two columns, the
    generic one has ["pins"]. *)
Record Pinout := {
  name : string;
  chip : string;
  layout : string;
  left_pins : option (list PyVal);
  right_pins : option (list PyVal);
  pins : option (list N);
  pin_labels : gmap N string
}.

Definition ints (l : list Z) : list PyVal := map PyInt l.
Definition strs (l : list string) : list PyVal := map PyStr l.

(** [list(range(a, b, -2))] for [a > b]. *)
Definition range_down2 (a b : Z) : list Z :=
  map (fun i => (a - 2 * Z.of_nat i)%Z) (seq 0 (Z.to_nat ((a - b + 1) / 2))).

Definition esp32_pinout : Pinout := {|
  name := "ESP32 DevKit V1";
  chip := "ESP32-WROOM-32";
  layout := "dual-column";
  left_pins := Some (ints [36; 39; 34; 35; 32; 33; 25; 26; 27; 14; 12; 13]%Z);
  right_pins := Some (ints [23; 22; 1; 3; 21; 19; 18; 5; 17; 16; 4; 2; 15]%Z);
  pins := None;
  pin_labels :=
    list_to_map
      [(36, "VP"); (39, "VN"); (34, "34"); (35, "35"); (32, "32"); (33, "33");
       (25, "25"); (26, "26"); (27, "27"); (14, "14"); (12, "12"); (13, "13");
       (23, "23"); (22, "22"); (1, "TX"); (3, "RX"); (21, "21"); (19, "19");
       (18, "18"); (5, "5"); (17, "17"); (16, "16"); (4, "4"); (2, "2");
       (15, "15")]
|}.

Definition nano_pinout : Pinout := {|
  name := "Arduino Nano";
  chip := "ATmega328P";
  layout := "dual-column";
  left_pins := Some (strs ["D13"; "D12"; "D11"; "D10"; "D9"; "D8"; "D7"; "D6";
                           "D5"; "D4"; "D3"; "D2"; "GND"; "RESET"; "RX"]);
  right_pins := Some (strs ["TX"; "3.3V"; "AREF"; "A0"; "A1"; "A2"; "A3"; "A4";
                            "A5"; "A6"; "A7"; "5V"; "VIN"; "GND"; "GND"]);
  pins := None;
  pin_labels := ∅
|}.

Definition uno_pinout : Pinout := {|
  name := "Arduino Uno R3";
  chip := "ATmega328P";
  layout := "dual-column";
  left_pins := Some (strs ["D13"; "D12"; "D11"; "D10"; "D9"; "D8"; "D7"; "D6";
                           "D5"; "D4"; "D3"; "D2"; "GND"; "AREF"]);
  right_pins := Some (strs ["A0"; "A1"; "A2"; "A3"; "A4"; "A5"; "VIN"; "GND";
                            "5V"; "3.3V"; "RESET"; "IOREF"]);
  pins := None;
  pin_labels := ∅
|}.

Definition mega_pinout : Pinout := {|
  name := "Arduino Mega 2560";
  chip := "ATmega2560";
  layout := "dual-column";
  left_pins := Some (ints (range_down2 53 21));
  right_pins := Some (ints (range_down2 52 20));
  pins := None;
  pin_labels := ∅
|}.

Definition esp8266_pinout : Pinout := {|
  name := "NodeMCU ESP8266";
  chip := "ESP8266";
  layout := "dual-column";
  left_pins := Some (strs ["D0"; "D1"; "D2"; "D3"; "D4"; "3.3V"; "GND"; "D5";
                           "D6"; "D7"; "D8"; "RX"; "TX"; "GND"; "3.3V"]);
  right_pins := Some (strs ["A0"; "RSV"; "RSV"; "SD3"; "SD2"; "SD1"; "CMD";
                            "SD0"; "CLK"; "GND"; "3.3V"; "EN"; "RST"; "GND"; "VIN"]);
  pins := None;
  pin_labels := ∅
|}.

(** [BOARD_PINOUTS], in insertion order (the fuzzy search iterates over it). *)
Definition BOARD_PINOUTS : list (string * Pinout) :=
  [("ESP32", esp32_pinout); ("Arduino Nano", nano_pinout);
   ("Arduino Uno", uno_pinout); ("Arduino Mega", mega_pinout);
   ("ESP8266", esp8266_pinout)].

(** The fallback dictionary of [get_board_pinout]. *)
Definition generic_pinout (board_type : string) : Pinout := {|
  name := board_type;
  chip := "Unknown";
  layout := "generic";
  left_pins := None;
  right_pins := None;
  pins := Some (range 0 32);
  pin_labels := ∅
|}.

(** [board_lower in key.lower() or key.lower() in board_lower]. *)
Definition fuzzy_match (board_lower : string) (kv : string * Pinout) : bool :=
  contains board_lower (lower (fst kv)) || contains (lower (fst kv)) board_lower.

(** [get_board_pinout]. *)
Definition get_board_pinout (board_type : string) : Pinout :=
  let board_type := strip board_type in
  match find (fun kv => String.eqb (fst kv) board_type) BOARD_PINOUTS with
  | Some kv => snd kv
  | None =>
      let board_lower := lower board_type in
      match find (fuzzy_match board_lower) BOARD_PINOUTS with
      | Some kv => snd kv
      | None => generic_pinout board_type
      end
  end.


(** [get_all_supported_boards]. *)
Definition get_all_supported_boards : list string := map fst BOARD_PINOUTS.

End BoardPinouts.

(** ** [firmware_gen.py]: assembling the firmware package *)

Module FirmwareGen.
Import PyText.

(** One entry of [FirmwareAssembler.BOARD_CONFIGS]. *)
Record BoardConfig := {
  platform : string;
  board : string;
  framework : string;
  dependencies : list string
}.

Definition esp32_config : BoardConfig :=
  {| platform := "espressif32"; board := "esp32dev"; framework := "arduino";
     dependencies := ["ESP32Servo"] |}.

Definition arduino_nano_config : BoardConfig :=
  {| platform := "atmelavr"; board := "nanoatmega328"; framework := "arduino";
     dependencies := ["Servo"] |}.

Definition arduino_uno_config : BoardConfig :=
  {| platform := "atmelavr"; board := "uno"; framework := "arduino";
     dependencies := ["Servo"] |}.

Definition BOARD_CONFIGS : gmap string BoardConfig :=
  <["esp32" := esp32_config]>
    (<["arduino_nano" := arduino_nano_config]>
       (<["arduino_uno" := arduino_uno_config]> ∅)).

(** [self.BOARD_CONFIGS.get(board, self.BOARD_CONFIGS["esp32"])]. *)
Definition board_config (board_type : string) : BoardConfig :=
  default esp32_config (BOARD_CONFIGS !! board_type).

Definition arduino_include : string := "#include <Arduino.h>".

(** [line.strip().startswith("#include")]. *)
Definition is_include_line (line : string) : bool :=
  startswith "#include" (strip line).

(** The loop over [enumerate(lines)] of [_add_platform_headers]:
    [insert_pos] is the index of the first include line, 0 without one. *)
Fixpoint first_include_from (i : nat) (lines : list string) : nat :=
  match lines with
  | [] => 0%nat
  | line :: r => if is_include_line line then i else first_include_from (S i) r
  end.

(** [_add_platform_headers]. *)
Definition _add_platform_headers (code board_type : string) : string :=
  if negb (contains arduino_include code)
     && negb (contains arduino_include (lower code)) then
    let lines := split_lines code in
    let insert_pos := first_include_from 0 lines in
    if Nat.eqb insert_pos 0 then arduino_include +:+ nl +:+ nl +:+ code
    else join nl (take insert_pos lines ++ arduino_include :: drop insert_pos lines)
  else code.

(** The comment [_add_build_comment] appends. *)
Definition build_comment (board_type : string) : string :=
  nl +:+ nl +:+ "// Build: pio run -t upload -e "
  +:+ board (board_config board_type) +:+ nl.

(** [_add_build_comment]. *)
Definition _add_build_comment (code board_type : string) : string :=
  if negb (contains "// Build:" code) && negb (contains "Build:" code)
  then code +:+ build_comment board_type
  else code.

(** [_detect_dependencies]. *)
Definition _detect_dependencies (code : string) : list string :=
  (if contains "Servo" code && contains "#include" code && contains "Servo.h" code
   then [if contains "ESP32" code || contains "esp32" (lower code)
         then "ESP32Servo" else "Servo"]
   else []) ++
  (if contains "Wire.h" code then ["Wire"] else []) ++
  (if contains "SPI.h" code then ["SPI"] else []).

(** [_generate_platformio_ini]. *)
Definition _generate_platformio_ini (board_type code : string) : string :=
  let board_config := board_config board_type in
  let dependencies := _detect_dependencies code in
  let dep_lines := join nl (map (fun dep => "    " +:+ dep) dependencies) in
  "[env:" +:+ board board_config +:+ "]" +:+ nl +:+
  "platform = " +:+ platform board_config +:+ nl +:+
  "board = " +:+ board board_config +:+ nl +:+
  "framework = " +:+ framework board_config +:+ nl +:+
  "monitor_speed = 115200" +:+ nl +:+
  "lib_deps = " +:+ nl +:+
  (if String.eqb dep_lines "" then "    ; No additional libraries" else dep_lines)
  +:+ nl.

(** The package dictionary: ["code"] (default [""]) and the connections of
    ["pin_json"] (default none). *)
Record FirmwarePackage := {
  fp_code : string;
  fp_connections : list HAL.Conn
}.

(** [@dataclass CompiledFirmware]. *)
Record CompiledFirmware := {
  main_cpp : string;
  resolved_pins_h : string;
  platformio_ini : string;
  cf_dependencies : list string;
  build_command : string
}.

Section Assembler.

(** [str.upper], which leaves the code points below 256 for some of them,
    is a parameter of the model. *)
Variable upper : string -> string.

(** The [#define] line of a pin entry of [_generate_pin_header]. *)
Definition define_line (component : string) (pin : HAL.PinEntry) : string :=
  let mcu_pin := py_str (default (PyStr "0") (HAL.mcu_pin pin)) in
  let pin_type := default "GPIO" (HAL.pin_type pin) in
  "#define " +:+ upper component +:+ "_" +:+ pin_type +:+ "_PIN " +:+ mcu_pin +:+ nl.

(** [_generate_pin_header]; [resolved_pins] is not read by the code. *)
Definition _generate_pin_header (connections : list HAL.Conn)
    (resolved_pins : option (gmap string N)) : string :=
  let header :=
    "/* " +:+ nl +:+ " * Resolved Pin Definitions" +:+ nl +:+
    " * Auto-generated by HardcoreAI" +:+ nl +:+ " */" +:+ nl +:+ nl +:+
    "#ifndef RESOLVED_PINS_H" +:+ nl +:+ "#define RESOLVED_PINS_H" +:+ nl +:+ nl in
  fold_left
    (fun header conn =>
       fold_left
         (fun header pin =>
            header +:+ define_line (default "Unknown" (HAL.component conn)) pin)
         (HAL.pins conn) header)
    connections header
  +:+ nl +:+ "#endif // RESOLVED_PINS_H" +:+ nl.

(** [assemble]. *)
Definition assemble (firmware_package : FirmwarePackage) (board_type : string)
    (resolved_pins : option (gmap string N)) : CompiledFirmware :=
  let code := fp_code firmware_package in
  let polished_code := _add_platform_headers code board_type in
  let polished_code := _add_build_comment polished_code board_type in
  {| main_cpp := polished_code;
     resolved_pins_h :=
       _generate_pin_header (fp_connections firmware_package) resolved_pins;
     platformio_ini := _generate_platformio_ini board_type code;
     cf_dependencies := _detect_dependencies code;
     build_command := "pio run -t upload" |}.

End Assembler.

End FirmwareGen.

(** * Properties *)

(** ** Text primitives *)

Module PyTextFacts.
Import PyText.

#[local] Arguments String.append !_ _ / : simpl nomatch.

Lemma append_empty_r s : s +:+ "" = s.
Proof. induction s; simpl; congruence. Qed.

Lemma take_while_all p s : all_chars p s = true -> take_while p s = s.
Proof.
  induction s as [|c t IH]; simpl; [done|].
  intros [Hc Ht]%andb_true_iff. rewrite Hc. f_equal. auto.
Qed.

Lemma take_while_app p s c t :
  all_chars p s = true -> p c = false ->
  take_while p (s +:+ String c t) = s.
Proof.
  intros Hs Hc. induction s as [|a r IH]; simpl in *.
  - by rewrite Hc.
  - apply andb_true_iff in Hs as [Ha Hr]. rewrite Ha. f_equal. auto.
Qed.

Lemma search_digits_none s :
  all_chars no_digit s = true -> search_digits s = None.
Proof.
  induction s as [|c t IH]; simpl; [done|].
  unfold no_digit at 1. intros [Hc Ht]%andb_true_iff.
  apply negb_true_iff in Hc. rewrite Hc. auto.
Qed.

Lemma search_digits_skip pre s :
  all_chars no_digit pre = true ->
  search_digits (pre +:+ s) = search_digits s.
Proof.
  induction pre as [|c t IH]; simpl; [done|].
  unfold no_digit at 1. intros [Hc Ht]%andb_true_iff.
  apply negb_true_iff in Hc. rewrite Hc. auto.
Qed.

Lemma search_digits_run ds post :
  ds <> "" -> all_chars is_digit ds = true -> ends_run post ->
  search_digits (ds +:+ post) = Some ds.
Proof.
  destruct ds as [|c t]; [done|]. intros _ Hds Hpost.
  pose proof Hds as Hds'. simpl in Hds'.
  apply andb_true_iff in Hds' as [Hc _].
  change (String c t +:+ post) with (String c (t +:+ post)).
  unfold search_digits. rewrite Hc. fold search_digits. f_equal.
  destruct post as [|a r].
  - rewrite append_empty_r. by apply take_while_all.
  - change (String c (t +:+ String a r)) with (String c t +:+ String a r).
    by apply take_while_app.
Qed.

Lemma string_of_uint_digits d :
  all_chars is_digit (NilEmpty.string_of_uint d) = true.
Proof. induction d; simpl; auto. Qed.

Lemma fold_digits_acc d acc :
  fold_left (fun a c => 10 * a + digit_val c)
    (list_ascii_of_string (NilEmpty.string_of_uint d)) (Npos acc)
  = Npos (Pos.of_uint_acc d acc).
Proof.
  revert acc. induction d; intros acc; simpl; [done|..];
    rewrite <- IHd; f_equal; unfold digit_val, code; simpl; lia.
Qed.

Lemma fold_digits d :
  fold_left (fun a c => 10 * a + digit_val c)
    (list_ascii_of_string (NilEmpty.string_of_uint d)) 0
  = N.of_uint d.
Proof.
  induction d; simpl; [done| |..];
    try (rewrite <- fold_digits_acc; f_equal; done).
  exact IHd.
Qed.

Lemma to_uint_not_nil n : N.to_uint n <> Decimal.Nil.
Proof.
  destruct n as [|p]; simpl; [done|]. apply DecimalPos.Unsigned.to_uint_nonnil.
Qed.

Lemma str_of_N_eq n : str_of_N n = NilEmpty.string_of_uint (N.to_uint n).
Proof.
  unfold str_of_N, NilZero.string_of_uint.
  pose proof (to_uint_not_nil n). by destruct (N.to_uint n).
Qed.

(** [str(n)] is a non-empty run of digits ... *)
Lemma str_of_N_digits n : all_chars is_digit (str_of_N n) = true.
Proof. rewrite str_of_N_eq. apply string_of_uint_digits. Qed.

Lemma str_of_N_nonempty n : str_of_N n <> "".
Proof.
  rewrite str_of_N_eq. pose proof (to_uint_not_nil n).
  by destruct (N.to_uint n).
Qed.

(** ... and [int] reads it back. *)
Lemma int_of_str n : int_of_digits (str_of_N n) = n.
Proof.
  unfold int_of_digits. rewrite str_of_N_eq, fold_digits.
  apply DecimalN.Unsigned.of_to.
Qed.

Lemma digit_eqb_false a c :
  is_digit a = false -> is_digit c = true -> Ascii.eqb a c = false.
Proof. intros Ha Hc. destruct (Ascii.eqb_spec a c); congruence. Qed.

Lemma strip_prefix_digit a p c t :
  is_digit a = false -> is_digit c = true ->
  strip_prefix (String a p) (String c t) = None.
Proof. intros Ha Hc. simpl. by rewrite (digit_eqb_false a c). Qed.

Lemma search_for_word_digits ds r :
  all_chars is_digit ds = true ->
  search_for_word (ds +:+ r) = search_for_word r.
Proof.
  induction ds as [|c t IH]; [done|]. simpl all_chars.
  intros [Hc Ht]%andb_true_iff.
  change (String c t +:+ r) with (String c (t +:+ r)).
  unfold search_for_word; fold search_for_word.
  rewrite strip_prefix_digit; auto.
Qed.

Lemma contains_digits a p ds r :
  is_digit a = false -> all_chars is_digit ds = true ->
  contains (String a p) (ds +:+ r) = contains (String a p) r.
Proof.
  intros Ha. induction ds as [|c t IH]; [done|]. simpl all_chars.
  intros [Hc Ht]%andb_true_iff.
  change (String c t +:+ r) with (String c (t +:+ r)).
  unfold contains; fold contains.
  rewrite strip_prefix_digit; auto.
Qed.

Lemma search_for_word_here c :
  is_word_name c -> search_for_word ("for " +:+ c) = Some c.
Proof.
  intros [Hne Hw]. simpl. rewrite (take_while_all _ _ Hw).
  by destruct c.
Qed.


Lemma elem_of_range a b p : p ∈ range a b <-> a <= p < b.
Proof.
  unfold range. rewrite list_elem_of_fmap. split.
  - intros (i & -> & Hi%elem_of_seq). lia.
  - intros H. exists (N.to_nat (p - a)). split; [lia|].
    apply elem_of_seq. lia.
Qed.

End PyTextFacts.

(** ** Validation and auto-fix *)

Module HALProps.
Import PyText PyTextFacts HAL.

#[local] Arguments String.append !_ _ / : simpl nomatch.

(** Closed decidable facts are settled by evaluation. *)
Ltac by_compute :=
  match goal with
  | |- ?P => apply (bool_decide_eq_true_1 P); vm_compute; reflexivity
  end.

(** *** What the auto-fix pass reads back from a message *)

Lemma wrong_capability_component cap caps pin c :
  cap = "PWM" \/ cap = "ADC" -> is_word_name c ->
  search_for_word (message (wrong_capability_issue cap caps pin c)) = Some c.
Proof.
  intros Hcap Hc. unfold wrong_capability_issue, message.
  change ("Pin " +:+ ?x) with (String "P" (String "i" (String "n" (String " " x)))).
  do 4 (unfold search_for_word at 1; fold search_for_word; simpl strip_prefix).
  rewrite search_for_word_digits by apply str_of_N_digits.
  destruct Hcap as [-> | ->]; simpl; rewrite (take_while_all _ _ (proj2 Hc));
    destruct Hc as [Hne _]; by destruct c.
Qed.

Lemma contains_pwm_in_pwm_message caps pin c :
  contains "PWM" (message (wrong_capability_issue "PWM" caps pin c)) = true.
Proof.
  unfold wrong_capability_issue, message.
  change ("Pin " +:+ ?x) with (String "P" (String "i" (String "n" (String " " x)))).
  do 4 (unfold contains at 1; fold contains; simpl strip_prefix).
  rewrite contains_digits by (done || apply str_of_N_digits).
  reflexivity.
Qed.

Lemma contains_adc_in_adc_message caps pin c :
  contains "ADC" (message (wrong_capability_issue "ADC" caps pin c)) = true.
Proof.
  unfold wrong_capability_issue, message.
  change ("Pin " +:+ ?x) with (String "P" (String "i" (String "n" (String " " x)))).
  do 4 (unfold contains at 1; fold contains; simpl strip_prefix).
  rewrite contains_digits by (done || apply str_of_N_digits).
  reflexivity.
Qed.

(** An ADC message mentions PWM exactly when the component name does. *)
Lemma contains_pwm_in_adc_message caps pin c :
  contains "PWM" (message (wrong_capability_issue "ADC" caps pin c))
  = contains "PWM" c.
Proof.
  unfold wrong_capability_issue, message.
  change ("Pin " +:+ ?x) with (String "P" (String "i" (String "n" (String " " x)))).
  do 4 (unfold contains at 1; fold contains; simpl strip_prefix).
  rewrite contains_digits by (done || apply str_of_N_digits).
  reflexivity.
Qed.

(** *** The validation loop, binding by binding *)

Lemma validate_pin_entry_binding self c st pin :
  validate_pin_entry self c st pin = validate_binding self st (binding_of c pin).
Proof.
  unfold validate_pin_entry, validate_binding, binding_issues, binding_of; simpl.
  f_equal. case_bool_decide; by rewrite <- ?app_assoc, ?app_nil_r.
Qed.

Lemma fold_validate_pins self c ps st :
  fold_left (validate_pin_entry self c) ps st
  = fold_left (validate_binding self) (map (binding_of c) ps) st.
Proof.
  revert st. induction ps as [|p r IH]; intros st; simpl; [done|].
  by rewrite validate_pin_entry_binding, IH.
Qed.

Lemma fold_validate_conns self conns st :
  fold_left (validate_conn self) conns st
  = fold_left (validate_binding self) (bindings conns) st.
Proof.
  revert st. induction conns as [|conn r IH]; intros st; simpl; [done|].
  unfold bindings in *. simpl. rewrite fold_left_app, <- IH.
  f_equal. apply fold_validate_pins.
Qed.

Lemma validate_bindings self conns :
  validate self conns = fold_left (validate_binding self) (bindings conns) vinit.
Proof. apply fold_validate_conns. Qed.

Lemma fold_binding_issues self bs st :
  issues (fold_left (validate_binding self) bs st)
  = issues st ++ issues_from self (used_pins st) bs.
Proof.
  revert st. induction bs as [|b r IH]; intros st; simpl.
  - by rewrite app_nil_r.
  - rewrite IH. simpl. by rewrite app_assoc.
Qed.


Lemma fold_binding_resolved self bs st c :
  resolved (fold_left (validate_binding self) bs st) !! c
  = match last_pin c bs with
    | Some p => Some p
    | None => resolved st !! c
    end.
Proof.
  revert st. induction bs as [|b r IH]; intros st; simpl; [done|].
  rewrite IH. destruct (last_pin c r); [done|]. simpl.
  destruct (String.eqb_spec (b_component b) c) as [->|Hne].
  - by rewrite lookup_insert_eq.
  - by rewrite lookup_insert_ne.
Qed.

(** The issue list of the validation loop is the sequence of the blocks of
    its bindings. *)
Lemma validate_issues self conns :
  issues (validate self conns) = issues_from self ∅ (bindings conns).
Proof. by rewrite validate_bindings, fold_binding_issues. Qed.


(** The mapping of the validation loop: for each component the pin of its
    last binding. *)
Lemma validate_resolved self conns c :
  resolved (validate self conns) !! c = last_pin c (bindings conns).
Proof.
  rewrite validate_bindings, fold_binding_resolved. simpl.
  by destruct (last_pin c (bindings conns)).
Qed.

(** *** The auto-fix pass *)

Lemma assign_first_free_remaining caps c st :
  remaining_issues (assign_first_free caps c st) = remaining_issues st.
Proof. unfold assign_first_free. by destruct (find _ caps). Qed.

Lemma auto_fix_issue_remaining self st i :
  Forall not_critical (remaining_issues st) ->
  Forall not_critical (remaining_issues (auto_fix_issue self st i)).
Proof.
  intros H. unfold auto_fix_issue.
  destruct (String.eqb (severity i) "critical") eqn:Hs; simpl.
  - destruct (String.eqb (type i) "wrong_capability").
    + destruct (search_for_word (message i)); [|done].
      destruct (contains "PWM" (message i));
        [by rewrite assign_first_free_remaining|].
      destruct (contains "ADC" (message i)); [|done].
      by rewrite assign_first_free_remaining.
    + destruct (String.eqb (type i) "invalid_pin"); [|done].
      simpl. apply Forall_app. split; [done|]. by repeat constructor.
  - apply Forall_app. split; [done|]. by repeat constructor.
Qed.

Lemma fold_auto_fix_remaining self iss st :
  Forall not_critical (remaining_issues st) ->
  Forall not_critical (remaining_issues (fold_left (auto_fix_issue self) iss st)).
Proof.
  revert st. induction iss as [|i r IH]; intros st H; simpl; [done|].
  apply IH. by apply auto_fix_issue_remaining.
Qed.

(** No Critical issue leaves [_auto_fix]. *)
Lemma auto_fix_no_critical self m iss conns :
  Forall not_critical (snd (_auto_fix self m iss conns)).
Proof. unfold _auto_fix. simpl. by apply fold_auto_fix_remaining. Qed.

(** So the issue list returned by [validate_and_resolve] never holds a
    Critical issue, whatever the input. *)
Lemma resolve_no_critical self conns :
  Forall not_critical (snd (validate_and_resolve self conns)).
Proof.
  unfold validate_and_resolve.
  destruct (existsb is_critical (issues (validate self conns))) eqn:He.
  - apply auto_fix_no_critical.
  - simpl. apply Forall_forall. intros i Hi.
    destruct (is_critical i) eqn:Hc; [|done].
    assert (existsb is_critical (issues (validate self conns)) = true) as Habs.
    { apply existsb_exists. exists i. split; [by apply list_elem_of_In|done]. }
    congruence.
Qed.

Lemma assign_first_free_frame caps c st c' :
  c <> c' ->
  fixed_resolved (assign_first_free caps c st) !! c' = fixed_resolved st !! c'.
Proof.
  intros Hne. unfold assign_first_free.
  destruct (find _ caps); [|done]. simpl. by rewrite lookup_insert_ne.
Qed.

(** A step of the pass changes the entry of no component but its target. *)
Lemma auto_fix_issue_frame self st i c :
  fix_target i <> Some c ->
  fixed_resolved (auto_fix_issue self st i) !! c = fixed_resolved st !! c.
Proof.
  unfold fix_target, auto_fix_issue, is_critical. intros Ht.
  destruct (String.eqb (severity i) "critical"); simpl in *; [|done].
  destruct (String.eqb (type i) "wrong_capability"); simpl in *.
  - destruct (search_for_word (message i)) as [c0|]; [|done].
    assert (c0 <> c) by congruence.
    destruct (contains "PWM" (message i)); [by apply assign_first_free_frame|].
    destruct (contains "ADC" (message i)); [|done].
    by apply assign_first_free_frame.
  - by destruct (String.eqb (type i) "invalid_pin").
Qed.

Lemma fold_auto_fix_frame self iss st c :
  (forall i, i ∈ iss -> fix_target i <> Some c) ->
  fixed_resolved (fold_left (auto_fix_issue self) iss st) !! c
  = fixed_resolved st !! c.
Proof.
  revert st. induction iss as [|i r IH]; intros st H; simpl; [done|].
  rewrite IH.
  - apply auto_fix_issue_frame. apply H. by left.
  - intros j Hj. apply H. by right.
Qed.

Lemma auto_fix_frame self m iss conns c :
  (forall i, i ∈ iss -> fix_target i <> Some c) ->
  fst (_auto_fix self m iss conns) !! c = m !! c.
Proof. intros H. unfold _auto_fix. simpl. by rewrite fold_auto_fix_frame. Qed.

(** At the level of a whole call: a component that no Critical
    wrong_capability message names keeps the pin the validation loop gave
    it. *)
Lemma resolve_frame self conns c :
  (forall i, i ∈ issues (validate self conns) -> fix_target i <> Some c) ->
  fst (validate_and_resolve self conns) !! c = resolved (validate self conns) !! c.
Proof.
  intros Hno. unfold validate_and_resolve.
  destruct (existsb is_critical _); [|done]. by rewrite auto_fix_frame.
Qed.

(** A PWM (ADC) binding the per-pin checks accept without a Critical issue
    is on a PWM-capable (ADC-capable) pin. *)
Lemma accepted_pwm_pin self pin c :
  Forall not_critical (_validate_pin self pin "PWM" c) ->
  pin ∈ pwm_capable (spec self).
Proof.
  unfold _validate_pin. case_bool_decide as Hav.
  { intros H. by inversion H. }
  simpl. destruct (decide (pin ∈ pwm_capable (spec self))) as [|Hno]; [done|].
  rewrite (bool_decide_eq_true_2 _ Hno). intros H.
  apply Forall_app in H as [_ H]. by inversion H.
Qed.

Lemma accepted_adc_pin self pin c :
  Forall not_critical (_validate_pin self pin "ADC" c) ->
  pin ∈ adc_capable (spec self).
Proof.
  unfold _validate_pin. case_bool_decide as Hav.
  { intros H. by inversion H. }
  simpl. destruct (decide (pin ∈ adc_capable (spec self))) as [|Hno]; [done|].
  rewrite (bool_decide_eq_true_2 _ Hno). intros H.
  apply Forall_app in H as [_ H]. by inversion H.
Qed.

(** The scan for a free pin. *)
Lemma find_free_some caps (used : gset N) p :
  find (fun q => bool_decide (q ∉ used)) caps = Some p -> first_free caps used p.
Proof.
  induction caps as [|a r IH]; simpl; [done|].
  case_bool_decide as Ha.
  - intros [= ->]. exists [], r. split; [done|]. split; [done|].
    intros q Hq. inversion Hq.
  - intros (l1 & l2 & -> & Hp & Hl)%IH. exists (a :: l1), l2.
    split; [done|]. split; [done|].
    intros q [->|Hq]%elem_of_cons; by auto.
Qed.

Lemma find_free_none caps (used : gset N) :
  find (fun q => bool_decide (q ∉ used)) caps = None <->
  forall q, q ∈ caps -> q ∈ used.
Proof.
  induction caps as [|a r IH]; simpl.
  - split; [|done]. intros _ q Hq. inversion Hq.
  - case_bool_decide as Ha.
    + split; [done|]. intros H. destruct Ha. apply H. by left.
    + rewrite IH. split.
      * intros H q [->|Hq]%elem_of_cons; by auto.
      * intros H q Hq. apply H. by right.
Qed.

Lemma first_free_unique caps (used : gset N) p q :
  first_free caps used p -> first_free caps used q -> p = q.
Proof.
  intros (l1 & l2 & -> & Hp & Hl) (k1 & k2 & Heq & Hq & Hk).
  revert k1 Heq Hk. induction l1 as [|a l1 IH]; intros k1 Heq Hk.
  - destruct k1 as [|b k1]; simpl in Heq; [congruence|].
    injection Heq as -> _. destruct Hp. apply Hk. by left.
  - destruct k1 as [|b k1]; simpl in Heq.
    + injection Heq as -> _. destruct Hq. apply Hl. by left.
    + injection Heq as -> Heq. apply (IH ltac:(intros; apply Hl; by right) k1 Heq).
      intros; apply Hk; by right.
Qed.

(** A Critical wrong_capability issue raised for a one-word component runs
    the scan over the pins of its capability. *)
Lemma auto_fix_issue_wrong_capability self st cap caps pin c :
  is_word_name c ->
  auto_fix_issue self st (wrong_capability_issue cap caps pin c)
  = if String.eqb cap "PWM"
    then assign_first_free (pwm_capable (spec self)) c st
    else if String.eqb cap "ADC"
    then (if contains "PWM" c
          then assign_first_free (pwm_capable (spec self)) c st
          else assign_first_free (adc_capable (spec self)) c st)
    else auto_fix_issue self st (wrong_capability_issue cap caps pin c).
Proof.
  intros Hc.
  destruct (String.eqb_spec cap "PWM") as [->|_].
  { unfold auto_fix_issue.
    rewrite wrong_capability_component by auto.
    by rewrite contains_pwm_in_pwm_message. }
  destruct (String.eqb_spec cap "ADC") as [->|_]; [|done].
  unfold auto_fix_issue.
  rewrite wrong_capability_component by auto.
  rewrite contains_pwm_in_adc_message, contains_adc_in_adc_message.
  by destruct (contains "PWM" c).
Qed.

(** *** C1: a duplicate pin is neither repaired nor reported *)

(** C1 (code defect). On the esp32, LED (GPIO) and Servo (PWM) both on pin
    2: the validation loop raises the Critical conflict issue, the auto-fix
    pass then drops it without reassigning anything, so the returned
    mapping still has both components on pin 2 and the returned issue list
    is empty. *)
Theorem duplicate_pin_dropped :
  issues (validate (init "esp32") shared_pin_input) = [conflict_issue 2] /\
  validate_and_resolve (init "esp32") shared_pin_input
  = (<["LED" := 2]> (<["Servo" := 2]> ∅), []).
Proof. split; vm_compute; reflexivity. Qed.

(** *** C2: a valid binding is reassigned *)

(** C2 (code defect). On the esp32, component Servo on pin 4 (GPIO) has no
    issue against it; component Servo Motor on pin 34 (PWM) has a Critical
    wrong_capability issue. The auto-fix pass reads the component back from
    the message as the single word Servo and moves the valid binding from
    pin 4 to pin 2, leaving Servo Motor on pin 34 with no issue returned. *)
Theorem valid_binding_reassigned :
  binding_issues (init "esp32") ∅
    {| b_component := "Servo"; b_pin := 4; b_type := "GPIO" |} = [] /\
  issues (validate (init "esp32") servo_input)
  = [wrong_capability_issue "PWM" (pwm_capable esp32_spec) 34 "Servo Motor"] /\
  resolved (validate (init "esp32") servo_input)
  = <["Servo" := 4]> (<["Servo Motor" := 34]> ∅) /\
  validate_and_resolve (init "esp32") servo_input
  = (<["Servo" := 2]> (<["Servo Motor" := 34]> ∅), []).
Proof. repeat split; vm_compute; reflexivity. Qed.

(** *** C4: a PWM binding left on a pin without PWM *)

(** C4 (code defect). On the esp32, component Servo on pin 50 with role PWM:
    pin 50 is not a pin of the board. The auto-fix pass turns the Critical
    invalid_pin issue into an auto_fixed Warning and leaves the pin as it
    is, so the returned list has no Critical issue and the PWM binding is
    on a pin outside the PWM-capable pins. The same happens when no PWM pin
    is free: the binding stays on pin 34 and nothing is returned. *)
Theorem pwm_binding_left_without_pwm :
  validate_and_resolve (init "esp32") invalid_pwm_input
  = (<["Servo" := 50]> ∅, [auto_fixed_issue (invalid_pin_issue (init "esp32") 50)]) /\
  (50 ∉ pwm_capable esp32_spec) /\
  fst (validate_and_resolve (init "esp32") exhausted_pwm_input) !! "Extra" = Some 34 /\
  snd (validate_and_resolve (init "esp32") exhausted_pwm_input) = [] /\
  (34 ∉ pwm_capable esp32_spec).
Proof.
  split; [vm_compute; reflexivity|].
  split; [by_compute|].
  split; [vm_compute; reflexivity|].
  split; [vm_compute; reflexivity|].
  by_compute.
Qed.

(** *** C3: what the auto-fix pass records *)

(** C3 (code defect). The auto-fix pass leaves no record of what it did
    with a Critical wrong_capability issue. On the esp32 with every PWM pin
    taken by a valid PWM binding and component Extra on pin 34 with role
    PWM: the only issue of the validation loop is the Critical one for
    Extra, no PWM pin is free, Extra stays on pin 34, and the returned list
    is empty, the Critical issue is not kept. On the arduino_uno with
    component Thermistor on pin 7 with role ADC: Thermistor is moved to pin
    14 and the returned list is empty, no Warning records the fix. The
    neighbouring branch, for an invalid_pin issue, does append its
    auto_fixed Warning. *)
Theorem wrong_capability_fix_leaves_no_issue :
  issues (validate (init "esp32") exhausted_pwm_input)
  = [wrong_capability_issue "PWM" (pwm_capable esp32_spec) 34 "Extra"] /\
  Forall (fun q => q ∈ (map_img (resolved (validate (init "esp32")
                                             exhausted_pwm_input)) : gset N))
         (pwm_capable esp32_spec) /\
  fst (validate_and_resolve (init "esp32") exhausted_pwm_input) !! "Extra"
  = Some 34 /\
  snd (validate_and_resolve (init "esp32") exhausted_pwm_input) = [] /\
  issues (validate (init "arduino_uno") fixable_adc_input)
  = [wrong_capability_issue "ADC" (adc_capable arduino_uno_spec) 7 "Thermistor"] /\
  validate_and_resolve (init "arduino_uno") fixable_adc_input
  = (<["Thermistor" := 14]> ∅, []) /\
  snd (validate_and_resolve (init "esp32") invalid_pwm_input)
  = [auto_fixed_issue (invalid_pin_issue (init "esp32") 50)].
Proof.
  split; [vm_compute; reflexivity|].
  split; [by_compute|].
  split; [vm_compute; reflexivity|].
  split; [vm_compute; reflexivity|].
  split; [vm_compute; reflexivity|].
  split; vm_compute; reflexivity.
Qed.

(** X25. The step of the auto-fix pass for a Critical wrong_capability
    issue raised for a component with a one-word name (and, for an ADC
    issue, a name that does not contain PWM): if a pin of the required
    capability is free, the component is reassigned to the first free one
    in the order of the board specification (there is exactly one such pin)
    and that pin becomes used; if none is free, the mapping and the used
    pins are left as they are. In both cases nothing is appended to the
    remaining issues. *)
Theorem auto_fix_reassigns_first_free self st cap pin c :
  is_word_name c ->
  cap = "PWM" \/ (cap = "ADC" /\ contains "PWM" c = false) ->
  let caps := if String.eqb cap "PWM" then pwm_capable (spec self)
              else adc_capable (spec self) in
  let st' := auto_fix_issue self st (wrong_capability_issue cap caps pin c) in
  ((exists q, q ∈ caps /\ q ∉ fix_used st) ->
   exists p, first_free caps (fix_used st) p /\
             (forall p', first_free caps (fix_used st) p' -> p' = p) /\
             fixed_resolved st' = <[c := p]> (fixed_resolved st) /\
             fix_used st' = {[p]} ∪ fix_used st) /\
  ((forall q, q ∈ caps -> q ∈ fix_used st) ->
   fixed_resolved st' = fixed_resolved st /\ fix_used st' = fix_used st) /\
  remaining_issues st' = remaining_issues st.
Proof.
  intros Hc Hcap caps st'.
  assert (st' = assign_first_free caps c st) as ->.
  { unfold st'. rewrite auto_fix_issue_wrong_capability by done.
    subst caps. destruct Hcap as [->|[-> ->]]; reflexivity. }
  split; [|split; [|apply assign_first_free_remaining]];
    unfold assign_first_free; destruct (find _ caps) as [p|] eqn:Hf.
  - intros _. exists p. apply find_free_some in Hf.
    split; [done|]. split; [|done].
    intros p' Hp'. by apply (first_free_unique caps (fix_used st)).
  - intros (q & Hq & Hnq). destruct Hnq.
    by apply (proj1 (find_free_none caps (fix_used st)) Hf).
  - intros Hall. apply find_free_some in Hf as (l1 & l2 & Heq & Hp & _).
    destruct Hp. apply Hall. rewrite Heq. apply elem_of_app. right. by left.
  - done.
Qed.

Lemma auto_fix_reassigns_first_free_witness :
  let st := {| fixed_resolved := <["Servo" := 34]> ∅;
               fix_used := {[34]};
               remaining_issues := [] |} in
  let caps := pwm_capable (spec (init "esp32")) in
  let st' := auto_fix_issue (init "esp32") st
               (wrong_capability_issue "PWM" caps 34 "Servo") in
  is_word_name "Servo" /\
  ("PWM" = "PWM" \/ ("PWM" = "ADC" /\ contains "PWM" "Servo" = false)) /\
  ((exists q, q ∈ caps /\ q ∉ fix_used st) ->
   exists p, first_free caps (fix_used st) p /\
             (forall p', first_free caps (fix_used st) p' -> p' = p) /\
             fixed_resolved st' = <["Servo" := p]> (fixed_resolved st) /\
             fix_used st' = {[p]} ∪ fix_used st) /\
  ((forall q, q ∈ caps -> q ∈ fix_used st) ->
   fixed_resolved st' = fixed_resolved st /\ fix_used st' = fix_used st) /\
  remaining_issues st' = remaining_issues st.
Proof.
  assert (is_word_name "Servo") as Hw by (split; [discriminate | reflexivity]).
  assert ("PWM" = "PWM" \/ ("PWM" = "ADC" /\ contains "PWM" "Servo" = false))
    as Hc by (left; reflexivity).
  split; [exact Hw|]. split; [exact Hc|].
  exact (auto_fix_reassigns_first_free (init "esp32") _ "PWM" 34 "Servo" Hw Hc).
Defined.


(** *** C7: conflict issues of the validation loop *)

Lemma parse_conflict_message q :
  _parse_pin_number (message (conflict_issue q)) = q.
Proof.
  unfold conflict_issue, message, _parse_pin_number.
  rewrite (search_digits_skip "Pin ") by reflexivity.
  rewrite search_digits_run.
  - apply int_of_str.
  - apply str_of_N_nonempty.
  - apply str_of_N_digits.
  - reflexivity.
Qed.

Lemma conflicts_on_app p l1 l2 :
  conflicts_on p (l1 ++ l2) = (conflicts_on p l1 + conflicts_on p l2)%nat.
Proof. unfold conflicts_on. by rewrite List.filter_app, length_app. Qed.

Lemma conflicts_on_validate_pin self p pin t c :
  conflicts_on p (_validate_pin self pin t c) = 0%nat.
Proof.
  unfold _validate_pin.
  repeat (case_bool_decide || destruct (String.eqb t _)); reflexivity.
Qed.

Lemma conflicts_on_conflict p q :
  conflicts_on p [conflict_issue q] = if decide (q = p) then 1%nat else 0%nat.
Proof.
  unfold conflicts_on. cbn [List.filter]. rewrite parse_conflict_message.
  change (type (conflict_issue q)) with "conflict". simpl.
  destruct (N.eqb_spec q p); by case_decide.
Qed.

Lemma conflicts_on_block self (seen : gset N) p b :
  conflicts_on p (binding_issues self seen b)
  = if decide (b_pin b = p /\ p ∈ seen) then 1%nat else 0%nat.
Proof.
  unfold binding_issues. rewrite conflicts_on_app, conflicts_on_validate_pin.
  case_bool_decide as Hs; simpl.
  - rewrite conflicts_on_conflict. repeat case_decide; naive_solver.
  - case_decide; naive_solver.
Qed.

Lemma conflicts_on_issues_from self (seen : gset N) p bs :
  conflicts_on p (issues_from self seen bs)
  = if decide (p ∈ seen) then bindings_on p bs else Nat.pred (bindings_on p bs).
Proof.
  revert seen. induction bs as [|b r IH]; intros seen; simpl.
  - by case_decide.
  - rewrite conflicts_on_app, conflicts_on_block, IH.
    unfold bindings_on in *. simpl.
    destruct (N.eqb_spec (b_pin b) p) as [Heq|Hne]; simpl.
    + rewrite (decide_True (P := p ∈ {[b_pin b]} ∪ seen)) by set_solver.
      repeat case_decide; naive_solver.
    + rewrite (decide_False (P := b_pin b = p /\ p ∈ seen)) by naive_solver.
      simpl. repeat case_decide; set_solver.
Qed.

(** C7 (counterexample). Three components on pin 4 of the esp32 form one
    group, for which the validation loop emits two conflict issues, not
    one; and two components on the missing pin 50 get the conflict issue on
    top of their two invalid_pin issues. *)
Lemma two_conflicts_for_three_bindings :
  ~ (1 < bindings_on 4 (bindings triple_input) ->
     conflicts_on 4 (issues (validate (init "esp32") triple_input)) = 1)%nat /\
  issues (validate (init "esp32") invalid_pair_input)
  = [invalid_pin_issue (init "esp32") 50; invalid_pin_issue (init "esp32") 50;
     conflict_issue 50].
Proof.
  split; [|vm_compute; reflexivity].
  intros H.
  assert (conflicts_on 4 (issues (validate (init "esp32") triple_input)) = 2%nat)
    as H2 by (vm_compute; reflexivity).
  rewrite H in H2; [discriminate|]. vm_compute. lia.
Qed.

(** C7 (amended). The validation loop handles the bindings one after the
    other in declaration order: for each it first runs the per-pin checks
    and right after them the duplicate test against the pins of the
    bindings before it. It emits one Critical conflict issue for every
    binding whose pin was already taken by an earlier binding, so a group
    of k bindings on one pin yields k-1 conflict issues; the pin takes part
    in this whether or not it was flagged invalid; the message names the pin
    and no component. *)
Theorem conflict_per_repeated_binding self conns p :
  issues (validate self conns) = issues_from self ∅ (bindings conns) /\
  conflicts_on p (issues (validate self conns))
  = Nat.pred (bindings_on p (bindings conns)) /\
  message (conflict_issue p)
  = "Pin " +:+ str_of_N p +:+ " used by multiple components".
Proof.
  split; [apply validate_issues|]. split; [|reflexivity].
  rewrite validate_issues, conflicts_on_issues_from.
  by rewrite decide_False by set_solver.
Qed.

(** *** C8: resolving a set without Critical issues *)

Lemma validate_pin_severity self pin t c i :
  i ∈ _validate_pin self pin t c ->
  severity i = "critical" \/ severity i = "warning".
Proof.
  unfold _validate_pin.
  repeat (case_bool_decide || destruct (String.eqb t _)); simpl;
    rewrite ?elem_of_cons, ?elem_of_nil; naive_solver.
Qed.

Lemma issues_from_severity self seen bs i :
  i ∈ issues_from self seen bs ->
  severity i = "critical" \/ severity i = "warning".
Proof.
  revert seen. induction bs as [|b r IH]; intros seen; simpl.
  - by intros ?%elem_of_nil.
  - unfold binding_issues. rewrite !elem_of_app.
    intros [[Hv|Hc]|Hr].
    + by eapply validate_pin_severity.
    + case_bool_decide; [|by apply elem_of_nil in Hc].
      apply list_elem_of_singleton in Hc as ->. by left.
    + by eapply IH.
Qed.

Lemma last_pin_here l1 b l2 :
  (forall b', b' ∈ l2 -> b_component b' <> b_component b) ->
  last_pin (b_component b) (l1 ++ b :: l2) = Some (b_pin b).
Proof.
  intros Hl2.
  assert (last_pin (b_component b) l2 = None) as Hnone.
  { induction l2 as [|a r IH]; simpl; [done|].
    rewrite IH by (intros; apply Hl2; by right).
    destruct (String.eqb_spec (b_component a) (b_component b)) as [He|]; [|done].
    destruct (Hl2 a); [by left|done]. }
  induction l1 as [|a l1 IH]; simpl.
  - by rewrite Hnone, String.eqb_refl.
  - by rewrite IH.
Qed.

(** C8 (counterexample). On the esp32, component Motor with the two pin
    entries 4 and 5: validation raises no issue, and the returned mapping
    holds Motor on pin 5 only, so the binding of Motor to pin 4 is not
    returned on its pin. *)
Lemma earlier_pin_not_returned :
  ~ (existsb is_critical (issues (validate (init "esp32") two_pin_input)) = false ->
     forall b, b ∈ bindings two_pin_input ->
       fst (validate_and_resolve (init "esp32") two_pin_input) !! b_component b
       = Some (b_pin b)) /\
  validate_and_resolve (init "esp32") two_pin_input = (<["Motor" := 5]> ∅, []).
Proof.
  split; [|vm_compute; reflexivity].
  intros H.
  specialize (H ltac:(vm_compute; reflexivity)
                {| b_component := "Motor"; b_pin := 4; b_type := "GPIO" |}).
  assert (fst (validate_and_resolve (init "esp32") two_pin_input) !! "Motor"
          = Some 5) as H5 by (vm_compute; reflexivity).
  simpl b_component in H. rewrite H5 in H.
  discriminate H. vm_compute. by left.
Qed.

(** C8 (amended). When the validation loop raises no Critical issue,
    [validate_and_resolve] runs no auto-fix and returns the mapping and the
    issues of the validation loop as they are. The mapping holds one pin
    per component, the pin of its last declaration: every binding whose
    component is not declared again later is returned on its own pin, so
    when no component is declared on more than one pin every binding is;
    and every returned issue has severity Warning. *)
Theorem resolve_valid_is_noop self conns :
  existsb is_critical (issues (validate self conns)) = false ->
  validate_and_resolve self conns
  = (resolved (validate self conns), issues (validate self conns)) /\
  (forall c, fst (validate_and_resolve self conns) !! c
             = last_pin c (bindings conns)) /\
  (forall l1 b l2,
     bindings conns = l1 ++ b :: l2 ->
     (forall b', b' ∈ l2 -> b_component b' <> b_component b) ->
     fst (validate_and_resolve self conns) !! b_component b = Some (b_pin b)) /\
  (NoDup (map b_component (bindings conns)) ->
   forall b, b ∈ bindings conns ->
     fst (validate_and_resolve self conns) !! b_component b = Some (b_pin b)) /\
  Forall (fun i => severity i = "warning") (snd (validate_and_resolve self conns)).
Proof.
  intros Hnc.
  assert (validate_and_resolve self conns
          = (resolved (validate self conns), issues (validate self conns))) as Heq.
  { unfold validate_and_resolve. by rewrite Hnc. }
  rewrite Heq. simpl. split; [done|]. split; [|split; [|split]].
  - intros c. apply validate_resolved.
  - intros l1 b l2 Hb Hl2. rewrite validate_resolved, Hb. by apply last_pin_here.
  - intros Hnd b Hb. apply list_elem_of_split in Hb as (l1 & l2 & Hb).
    rewrite validate_resolved, Hb. apply last_pin_here.
    intros b' Hb' Heqc. rewrite Hb, map_app in Hnd. simpl in Hnd.
    apply NoDup_app in Hnd as (_ & _ & Hnd).
    apply NoDup_cons in Hnd as [Hnotin _].
    apply Hnotin. rewrite <- Heqc. apply list_elem_of_fmap. by exists b'.
  - apply Forall_forall. intros i Hi.
    pose proof Hi as Hi'. rewrite validate_issues in Hi'.
    apply issues_from_severity in Hi' as [Hcrit|Hw]; [|done].
    assert (existsb is_critical (issues (validate self conns)) = true) as Habs.
    { apply existsb_exists. exists i. split; [by apply list_elem_of_In|].
      unfold is_critical. by rewrite Hcrit. }
    congruence.
Qed.

Lemma resolve_valid_is_noop_witness :
  existsb is_critical (issues (validate (init "esp32") flash_input)) = false /\
  validate_and_resolve (init "esp32") flash_input
  = (resolved (validate (init "esp32") flash_input),
     issues (validate (init "esp32") flash_input)) /\
  (forall c, fst (validate_and_resolve (init "esp32") flash_input) !! c
             = last_pin c (bindings flash_input)) /\
  (forall l1 b l2,
     bindings flash_input = l1 ++ b :: l2 ->
     (forall b', b' ∈ l2 -> b_component b' <> b_component b) ->
     fst (validate_and_resolve (init "esp32") flash_input) !! b_component b
     = Some (b_pin b)) /\
  (NoDup (map b_component (bindings flash_input)) ->
   forall b, b ∈ bindings flash_input ->
     fst (validate_and_resolve (init "esp32") flash_input) !! b_component b
     = Some (b_pin b)) /\
  Forall (fun i => severity i = "warning")
         (snd (validate_and_resolve (init "esp32") flash_input)).
Proof.
  assert (existsb is_critical (issues (validate (init "esp32") flash_input)) = false)
    as H by (vm_compute; reflexivity).
  split; [exact H|].
  exact (resolve_valid_is_noop (init "esp32") flash_input H).
Defined.


(** *** C10: a component declared more than once *)

Lemma first_free_elem caps used p : first_free caps used p -> p ∈ caps.
Proof.
  intros (l1 & l2 & -> & _). apply elem_of_app. right. by left.
Qed.

Lemma assign_first_free_value caps c st c' p :
  fixed_resolved st !! c' = Some p ->
  exists p', fixed_resolved (assign_first_free caps c st) !! c' = Some p' /\
             (p' = p \/ p' ∈ caps).
Proof.
  intros H. unfold assign_first_free.
  destruct (find _ caps) as [q|] eqn:Hf; [|by eauto].
  simpl. destruct (decide (c = c')) as [->|Hne].
  - rewrite lookup_insert_eq. exists q. split; [done|]. right.
    by eapply first_free_elem, find_free_some.
  - rewrite lookup_insert_ne by done. eauto.
Qed.

Lemma auto_fix_issue_value self st i c p :
  fixed_resolved st !! c = Some p ->
  exists p', fixed_resolved (auto_fix_issue self st i) !! c = Some p' /\
             (p' = p \/ p' ∈ pwm_capable (spec self) \/ p' ∈ adc_capable (spec self)).
Proof.
  intros H. unfold auto_fix_issue.
  destruct (String.eqb (severity i) "critical"); simpl; [|by eauto].
  destruct (String.eqb (type i) "wrong_capability").
  - destruct (search_for_word (message i)) as [c0|]; [|by eauto].
    destruct (contains "PWM" (message i)).
    { destruct (assign_first_free_value (pwm_capable (spec self)) c0 st c p H)
        as (p' & ? & [?|?]); eauto. }
    destruct (contains "ADC" (message i)); [|by eauto].
    destruct (assign_first_free_value (adc_capable (spec self)) c0 st c p H)
      as (p' & ? & [?|?]); eauto.
  - destruct (String.eqb (type i) "invalid_pin"); simpl; eauto.
Qed.

Lemma fold_auto_fix_value self iss st c p :
  fixed_resolved st !! c = Some p ->
  exists p', fixed_resolved (fold_left (auto_fix_issue self) iss st) !! c = Some p' /\
             (p' = p \/ p' ∈ pwm_capable (spec self) \/ p' ∈ adc_capable (spec self)).
Proof.
  revert st p. induction iss as [|i r IH]; intros st p H; simpl; [by eauto|].
  destruct (auto_fix_issue_value self st i c p H) as (q & Hq & Hor).
  destruct (IH _ _ Hq) as (p' & Hp' & Hor').
  exists p'. split; [done|]. naive_solver.
Qed.







(** *** C6: pin numbers read from text *)

Lemma parse_run pre ds post :
  all_chars no_digit pre = true -> ds <> "" -> all_chars is_digit ds = true ->
  ends_run post ->
  _parse_pin_number (pre +:+ ds +:+ post) = int_of_digits ds.
Proof.
  intros Hpre Hne Hds Hpost. unfold _parse_pin_number.
  by rewrite search_digits_skip, search_digits_run.
Qed.

Lemma parse_str_of_N pre n :
  all_chars no_digit pre = true -> _parse_pin_number (pre +:+ str_of_N n) = n.
Proof.
  intros Hpre. rewrite <- (append_empty_r (str_of_N n)).
  rewrite parse_run; [apply int_of_str|done|apply str_of_N_nonempty|
                      apply str_of_N_digits|done].
Qed.

(** [str] of an integer, parsed back: the sign is skipped. *)
Lemma parse_int z : _parse_pin_number (py_str (PyInt z)) = Z.abs_N z.
Proof.
  destruct z as [|p|p]; simpl py_str.
  - reflexivity.
  - change (str_of_Z (Z.pos p)) with ("" +:+ str_of_N (N.pos p)).
    by rewrite parse_str_of_N.
  - change (str_of_Z (Z.neg p)) with ("-" +:+ str_of_N (N.pos p)).
    by rewrite parse_str_of_N.
Qed.

(** C6 (counterexample). On the esp32, a pin written ["LED_BUILTIN"] is not
    rejected: the component is bound to pin 0 and the only issue is the
    reserved_pin Warning of pin 0, no invalid_pin issue. *)
Lemma no_digits_is_pin_zero :
  fst (validate_and_resolve (init "esp32") no_digit_input) !! "Led" = Some 0 /\
  ~ (exists i, i ∈ snd (validate_and_resolve (init "esp32") no_digit_input) /\
               type i = "invalid_pin" /\ severity i = "warning").
Proof.
  split; [vm_compute; reflexivity|].
  assert (snd (validate_and_resolve (init "esp32") no_digit_input)
          = [reserved_pin_issue 0]) as -> by (vm_compute; reflexivity).
  intros (i & Hi & Ht & _). apply list_elem_of_singleton in Hi as ->.
  discriminate.
Qed.

(** C6 (amended). [_parse_pin_number] returns the value of the first run of
    digits of the text: of ["GPIO{n}"], ["D{n}"], ["A{n}"], of [str] of an
    integer and of a numeric string. For a text without digits it does not
    fail: it returns pin 0, and the caller validates and binds pin 0 as it
    would for the integer 0. *)
Theorem parse_pin_number_first_run pre ds post nodig n z :
  all_chars no_digit pre = true ->
  ds <> "" -> all_chars is_digit ds = true -> ends_run post ->
  all_chars no_digit nodig = true ->
  _parse_pin_number (pre +:+ ds +:+ post) = int_of_digits ds /\
  _parse_pin_number (pre +:+ str_of_N n) = n /\
  _parse_pin_number (py_str (PyInt z)) = Z.abs_N z /\
  _parse_pin_number nodig = 0 /\
  forall self c st t,
    validate_pin_entry self c st {| mcu_pin := Some (PyStr nodig); pin_type := t |}
    = validate_pin_entry self c st {| mcu_pin := Some (PyInt 0); pin_type := t |}.
Proof.
  intros Hpre Hne Hds Hpost Hnd.
  assert (_parse_pin_number nodig = 0) as H0.
  { unfold _parse_pin_number. by rewrite search_digits_none. }
  split; [by apply parse_run|]. split; [by apply parse_str_of_N|].
  split; [apply parse_int|]. split; [done|].
  intros self c st t. unfold validate_pin_entry. simpl.
  by rewrite H0.
Qed.

Lemma parse_pin_number_first_run_witness :
  all_chars no_digit "GPIO" = true /\
  "12" <> "" /\ all_chars is_digit "12" = true /\ ends_run "_ADC" /\
  all_chars no_digit "LED_BUILTIN" = true /\
  _parse_pin_number ("GPIO" +:+ "12" +:+ "_ADC") = int_of_digits "12" /\
  _parse_pin_number ("GPIO" +:+ str_of_N 13) = 13 /\
  _parse_pin_number (py_str (PyInt 2)) = Z.abs_N 2 /\
  _parse_pin_number "LED_BUILTIN" = 0 /\
  forall self c st t,
    validate_pin_entry self c st
      {| mcu_pin := Some (PyStr "LED_BUILTIN"); pin_type := t |}
    = validate_pin_entry self c st {| mcu_pin := Some (PyInt 0); pin_type := t |}.
Proof.
  assert (all_chars no_digit "GPIO" = true) as H1 by reflexivity.
  assert ("12" <> "") as H2 by discriminate.
  assert (all_chars is_digit "12" = true) as H3 by reflexivity.
  assert (ends_run "_ADC") as H4 by reflexivity.
  assert (all_chars no_digit "LED_BUILTIN" = true) as H5 by reflexivity.
  split; [exact H1|]. split; [exact H2|]. split; [exact H3|].
  split; [exact H4|]. split; [exact H5|].
  exact (parse_pin_number_first_run "GPIO" "12" "_ADC" "LED_BUILTIN" 13 2
           H1 H2 H3 H4 H5).
Defined.

(** *** C5: a board without a registered specification *)

Lemma init_unknown board_type :
  BOARD_SPECS !! board_type = None ->
  init board_type = {| board_type := board_type; spec := esp32_spec |}.
Proof. intros H. unfold init. by rewrite H. Qed.

Lemma esp32_pwm_pin_clean bt pin c :
  pin ∈ pwm_capable esp32_spec ->
  _validate_pin {| board_type := bt; spec := esp32_spec |} pin "PWM" c = [].
Proof.
  intros Hin. simpl in Hin.
  repeat (apply elem_of_cons in Hin as [->|Hin]; [vm_compute; reflexivity|]).
  by apply elem_of_nil in Hin.
Qed.

Lemma esp32_adc_pin_clean bt pin c :
  pin ∈ adc_capable esp32_spec ->
  _validate_pin {| board_type := bt; spec := esp32_spec |} pin "ADC" c = [].
Proof.
  intros Hin. simpl in Hin.
  repeat (apply elem_of_cons in Hin as [->|Hin]; [vm_compute; reflexivity|]).
  by apply elem_of_nil in Hin.
Qed.

Lemma esp32_wrong_capability bt pin c :
  pin < 40 ->
  (pin ∉ pwm_capable esp32_spec ->
   wrong_capability_issue "PWM" (pwm_capable esp32_spec) pin c
   ∈ _validate_pin {| board_type := bt; spec := esp32_spec |} pin "PWM" c) /\
  (pin ∉ adc_capable esp32_spec ->
   wrong_capability_issue "ADC" (adc_capable esp32_spec) pin c
   ∈ _validate_pin {| board_type := bt; spec := esp32_spec |} pin "ADC" c).
Proof.
  intros Hlt.
  assert (pin ∈ available_gpio esp32_spec) as Hav.
  { apply elem_of_range. lia. }
  split; intros Hno; unfold _validate_pin; cbn [spec];
    rewrite (bool_decide_eq_false_2 (pin ∉ _)) by auto;
    rewrite (bool_decide_eq_true_2 _ Hno); simpl;
    apply elem_of_app; right; by left.
Qed.

(** C5 (counterexample). The board [unknown_board_xyz] has no registered
    specification, yet the pins the engine works with are not 0..31, its
    PWM and ADC pins are not empty, and a PWM binding on pin 4 raises no
    issue at all. *)
Lemma unknown_board_is_not_generic :
  BOARD_SPECS !! "unknown_board_xyz" = None /\
  available_gpio (spec (init "unknown_board_xyz")) <> range 0 32 /\
  pwm_capable (spec (init "unknown_board_xyz")) <> [] /\
  adc_capable (spec (init "unknown_board_xyz")) <> [] /\
  _validate_pin (init "unknown_board_xyz") 4 "PWM" "Servo" = [].
Proof.
  split; [vm_compute; reflexivity|].
  repeat split; vm_compute; discriminate.
Qed.

(** C5 (amended). For a board identifier without a registered
    specification the resolution engine falls back to the esp32
    specification (pins 0..39 with the esp32 PWM, ADC and I2C pins), not to
    a generic one. A PWM- or ADC-role binding is then checked against the
    esp32 capabilities: on a pin with the capability it raises no issue; on
    another pin below 40 it raises the Critical wrong_capability issue,
    whose suggestion lists the first three pins of the capability; on a pin
    from 40 on it raises the Critical invalid_pin issue. *)
Theorem unknown_board_gets_esp32 board_type pin c :
  BOARD_SPECS !! board_type = None ->
  spec (init board_type) = esp32_spec /\
  available_gpio (spec (init board_type)) = range 0 40 /\
  (pin ∈ pwm_capable esp32_spec ->
   _validate_pin (init board_type) pin "PWM" c = []) /\
  (pin ∈ adc_capable esp32_spec ->
   _validate_pin (init board_type) pin "ADC" c = []) /\
  (pin < 40 -> pin ∉ pwm_capable esp32_spec ->
   wrong_capability_issue "PWM" (pwm_capable esp32_spec) pin c
   ∈ _validate_pin (init board_type) pin "PWM" c) /\
  (pin < 40 -> pin ∉ adc_capable esp32_spec ->
   wrong_capability_issue "ADC" (adc_capable esp32_spec) pin c
   ∈ _validate_pin (init board_type) pin "ADC" c) /\
  suggested_fix (wrong_capability_issue "PWM" (pwm_capable esp32_spec) pin c)
  = Some "Use PWM pin: [2, 4, 5]" /\
  suggested_fix (wrong_capability_issue "ADC" (adc_capable esp32_spec) pin c)
  = Some "Use ADC pin: [32, 33, 34]" /\
  (40 <= pin -> forall t,
   _validate_pin (init board_type) pin t c = [invalid_pin_issue (init board_type) pin]).
Proof.
  intros Hnone. rewrite (init_unknown _ Hnone). cbn [spec].
  split; [done|]. split; [done|].
  split; [apply esp32_pwm_pin_clean|]. split; [apply esp32_adc_pin_clean|].
  split; [intros Hlt; by apply esp32_wrong_capability|].
  split; [intros Hlt; by apply esp32_wrong_capability|].
  split; [reflexivity|]. split; [reflexivity|].
  intros Hge t. unfold _validate_pin. cbn [spec].
  rewrite bool_decide_eq_true_2; [done|].
  change (available_gpio esp32_spec) with (range 0 40).
  rewrite elem_of_range. lia.
Qed.

Lemma unknown_board_gets_esp32_witness :
  BOARD_SPECS !! "unknown_board_xyz" = None /\
  spec (init "unknown_board_xyz") = esp32_spec /\
  available_gpio (spec (init "unknown_board_xyz")) = range 0 40 /\
  (34 ∈ pwm_capable esp32_spec ->
   _validate_pin (init "unknown_board_xyz") 34 "PWM" "Servo" = []) /\
  (34 ∈ adc_capable esp32_spec ->
   _validate_pin (init "unknown_board_xyz") 34 "ADC" "Servo" = []) /\
  (34 < 40 -> 34 ∉ pwm_capable esp32_spec ->
   wrong_capability_issue "PWM" (pwm_capable esp32_spec) 34 "Servo"
   ∈ _validate_pin (init "unknown_board_xyz") 34 "PWM" "Servo") /\
  (34 < 40 -> 34 ∉ adc_capable esp32_spec ->
   wrong_capability_issue "ADC" (adc_capable esp32_spec) 34 "Servo"
   ∈ _validate_pin (init "unknown_board_xyz") 34 "ADC" "Servo") /\
  suggested_fix (wrong_capability_issue "PWM" (pwm_capable esp32_spec) 34 "Servo")
  = Some "Use PWM pin: [2, 4, 5]" /\
  suggested_fix (wrong_capability_issue "ADC" (adc_capable esp32_spec) 34 "Servo")
  = Some "Use ADC pin: [32, 33, 34]" /\
  (40 <= 34 -> forall t,
   _validate_pin (init "unknown_board_xyz") 34 t "Servo"
   = [invalid_pin_issue (init "unknown_board_xyz") 34]).
Proof.
  assert (BOARD_SPECS !! "unknown_board_xyz" = None) as H
    by (vm_compute; reflexivity).
  split; [exact H|].
  exact (unknown_board_gets_esp32 "unknown_board_xyz" 34 "Servo" H).
Defined.

End HALProps.

(** ** Pin assignment and its usage table *)

Module PinMapperProps.
Import PyText PinMapper.

Lemma mark_used_spec pt (assigned : gmap string N) (usage : gmap N string) :
  (forall role pin, assigned !! role = Some pin ->
                    mark_used pt assigned usage !! pin = Some pt) /\
  (forall pin, is_Some (usage !! pin) ->
               is_Some (mark_used pt assigned usage !! pin)).
Proof.
  unfold mark_used.
  apply (map_fold_weak_ind
           (fun (r : gmap N string) (m : gmap string N) =>
              (forall role pin, m !! role = Some pin -> r !! pin = Some pt) /\
              (forall pin, is_Some (usage !! pin) -> is_Some (r !! pin)))).
  - split; [|done]. intros role pin H. by rewrite lookup_empty in H.
  - intros role pin m r Hnone [IH1 IH2]. split.
    + intros role' pin' H. destruct (decide (pin = pin')) as [->|Hne].
      * by rewrite lookup_insert_eq.
      * rewrite lookup_insert_ne by done.
        destruct (decide (role = role')) as [->|Hr].
        -- rewrite lookup_insert_eq in H. congruence.
        -- rewrite lookup_insert_ne in H by done. eauto.
    + intros pin' H. destruct (decide (pin = pin')) as [->|Hne].
      * by rewrite lookup_insert_eq.
      * rewrite lookup_insert_ne by done. auto.
Qed.

(** The bus pins do not depend on the usage table. *)
Lemma assigned_for_bus self other board_type peripheral_type :
  uses_table peripheral_type = false ->
  assigned_for self board_type peripheral_type
  = assigned_for other board_type peripheral_type.
Proof.
  unfold uses_table, assigned_for. intros H.
  repeat (apply orb_false_iff in H as [H ?]).
  repeat match goal with H : String.eqb _ _ = false |- _ => rewrite H; clear H end.
  reflexivity.
Qed.

(** C9 (counterexample). On a fresh mapper, two calls in a row for an LED on
    the esp32 do not return the same pins: the first returns pin 2, the
    second pin 4. *)
Lemma second_led_differs :
  ~ (fst (auto_assign_pins (snd (auto_assign_pins init "esp32" "led")) "esp32" "led")
     = fst (auto_assign_pins init "esp32" "led")).
Proof.
  intros H. apply (f_equal (fun m : gmap string N => m !! "LED")) in H.
  vm_compute in H. discriminate.
Qed.

(** C9 (amended). [auto_assign_pins] reads and updates the usage table of
    the mapper, which stays between calls: every pin a call returns is
    recorded under the peripheral type, and no earlier record is removed.
    Two calls in a row on the same input return the same pins for the
    peripheral types that do not consult the table (i2c, spi, uart and the
    unrecognised ones), and a call after [reset] returns what a call on a
    fresh mapper returns; for led, dht11, dht22 and servo the result depends
    on the table. *)
Theorem auto_assign_keeps_usage self board_type peripheral_type :
  let r1 := auto_assign_pins self board_type peripheral_type in
  let r2 := auto_assign_pins (snd r1) board_type peripheral_type in
  (uses_table peripheral_type = false -> fst r2 = fst r1) /\
  (forall role pin, fst r1 !! role = Some pin ->
                    pin_usage (snd r1) !! pin = Some peripheral_type) /\
  (forall pin, is_Some (pin_usage self !! pin) ->
               is_Some (pin_usage (snd r1) !! pin)) /\
  fst (auto_assign_pins (reset (snd r1)) board_type peripheral_type)
  = fst (auto_assign_pins init board_type peripheral_type).
Proof.
  intros r1 r2. split; [|split; [|split]].
  - intros H. unfold r2, r1, auto_assign_pins. simpl. by apply assigned_for_bus.
  - unfold r1, auto_assign_pins. simpl. apply mark_used_spec.
  - unfold r1, auto_assign_pins. simpl. apply mark_used_spec.
  - reflexivity.
Qed.

Lemma auto_assign_keeps_usage_witness :
  let r1 := auto_assign_pins init "esp32" "i2c" in
  let r2 := auto_assign_pins (snd r1) "esp32" "i2c" in
  uses_table "i2c" = false /\ fst r2 = fst r1.
Proof.
  split; [reflexivity|].
  exact (proj1 (auto_assign_keeps_usage init "esp32" "i2c") eq_refl).
Defined.

End PinMapperProps.

(** ** Pinout lookup *)

Module BoardPinoutsProps.
Import PyText BoardPinouts.

(** The generic pinout, with pins 0..31, is what the diagram lookup returns
    for a name that matches no registered pinout; the resolution engine
    does not consult it. *)
Lemma unknown_pinout_is_generic :
  get_board_pinout "unknown_board_xyz" = generic_pinout "unknown_board_xyz" /\
  pins (generic_pinout "unknown_board_xyz") = Some (range 0 32).
Proof. split; vm_compute; reflexivity. Qed.

(** A name matches a registered pinout by substring, in either direction
    and without regard to case. *)
Lemma fuzzy_pinout_lookup :
  get_board_pinout " esp32 devkit " = esp32_pinout /\
  get_board_pinout "uno" = uno_pinout.
Proof. split; vm_compute; reflexivity. Qed.

End BoardPinoutsProps.

(** ** Further properties of validation and auto-fix *)

Module HALExtra.
Import PyText PyTextFacts HAL HALProps.

#[local] Arguments String.append !_ _ / : simpl nomatch.

(** *** The returned issue list *)

Lemma fold_auto_fix_issues self iss st :
  remaining_issues (fold_left (auto_fix_issue self) iss st)
  = remaining_issues st ++ flat_map returned_issue iss.
Proof.
  revert st. induction iss as [|i r IH]; intros st; simpl.
  - by rewrite app_nil_r.
  - rewrite IH, app_assoc. f_equal.
    unfold auto_fix_issue, returned_issue, is_critical.
    destruct (String.eqb (severity i) "critical"); simpl; [|done].
    destruct (String.eqb (type i) "wrong_capability") eqn:Hw.
    + assert (String.eqb (type i) "invalid_pin" = false) as ->.
      { apply String.eqb_eq in Hw. by rewrite Hw. }
      rewrite app_nil_r.
      destruct (search_for_word (message i)); [|done].
      destruct (contains "PWM" (message i));
        [by rewrite assign_first_free_remaining|].
      destruct (contains "ADC" (message i)); [|done].
      by rewrite assign_first_free_remaining.
    + destruct (String.eqb (type i) "invalid_pin"); [done|].
      by rewrite app_nil_r.
Qed.

Lemma returned_issue_id l :
  existsb is_critical l = false -> flat_map returned_issue l = l.
Proof.
  induction l as [|i r IH]; simpl; [done|].
  intros [Hi Hr]%orb_false_iff. unfold returned_issue at 1.
  rewrite Hi. simpl. by rewrite IH.
Qed.

Lemma resolve_issues_shape self conns :
  snd (validate_and_resolve self conns)
  = flat_map returned_issue (issues (validate self conns)).
Proof.
  unfold validate_and_resolve.
  destruct (existsb is_critical (issues (validate self conns))) eqn:He.
  - unfold _auto_fix. simpl. by rewrite fold_auto_fix_issues.
  - simpl. by rewrite returned_issue_id.
Qed.

(** X1. The issue list returned by [validate_and_resolve] is the list of the
    validation loop, in its order, in which every Critical invalid_pin issue
    is replaced by its auto_fixed Warning and every other Critical issue is
    left out. *)
Theorem returned_issues_shape self conns :
  snd (validate_and_resolve self conns)
  = flat_map returned_issue (issues (validate self conns)).
Proof. apply resolve_issues_shape. Qed.

(** X2. Whatever the board and the input, every issue returned by
    [validate_and_resolve] has severity Warning: no Critical issue is ever
    returned. *)
Theorem returned_issues_are_warnings self conns :
  Forall (fun i => severity i = "warning")
         (snd (validate_and_resolve self conns)).
Proof.
  rewrite resolve_issues_shape, validate_issues.
  apply Forall_forall. intros i Hi.
  apply list_elem_of_In, in_flat_map in Hi as (j & Hj & Hi).
  apply list_elem_of_In in Hj. apply issues_from_severity in Hj.
  unfold returned_issue, is_critical in Hi.
  destruct (String.eqb_spec (severity j) "critical") as [Hc|Hc]; simpl in Hi.
  - destruct (String.eqb (type j) "invalid_pin"); simpl in Hi; [|done].
    by destruct Hi as [<-|[]].
  - destruct Hi as [<-|[]]. by destruct Hj as [Hj|Hj].
Qed.


(** *** The returned mapping *)

Lemma fix_inv_assign self m0 caps c st :
  (forall p, p ∈ caps -> p ∈ pwm_capable (spec self) \/ p ∈ adc_capable (spec self)) ->
  fix_inv self m0 st -> fix_inv self m0 (assign_first_free caps c st).
Proof.
  intros Hcaps (Hused & Hpair & Horig). unfold assign_first_free.
  destruct (find _ caps) as [q|] eqn:Hf; [|done].
  apply find_free_some in Hf. pose proof (first_free_elem _ _ _ Hf) as Hq.
  destruct Hf as (_ & _ & _ & Hfree & _).
  split; [|split]; simpl.
  - intros c' p. destruct (decide (c = c')) as [<-|Hne].
    + rewrite lookup_insert_eq. intros [= ->]. set_solver.
    + rewrite lookup_insert_ne by done. intros H%Hused. set_solver.
  - intros c1 c2 p Hne.
    destruct (decide (c = c1)) as [<-|H1]; destruct (decide (c = c2)) as [<-|H2];
      rewrite ?lookup_insert_eq, ?lookup_insert_ne by done; try done.
    + intros [= ->] H%Hused. done.
    + intros H%Hused [= ->]. done.
    + by apply Hpair.
  - intros c' p. destruct (decide (c = c')) as [<-|Hne].
    + rewrite lookup_insert_eq. intros [= ->]. right. by apply Hcaps.
    + rewrite lookup_insert_ne by done. apply Horig.
Qed.

Lemma fix_inv_step self m0 st i :
  fix_inv self m0 st -> fix_inv self m0 (auto_fix_issue self st i).
Proof.
  intros H. unfold auto_fix_issue.
  destruct (String.eqb (severity i) "critical"); simpl; [|done].
  destruct (String.eqb (type i) "wrong_capability").
  - destruct (search_for_word (message i)); [|done].
    destruct (contains "PWM" (message i)); [apply fix_inv_assign; auto|].
    destruct (contains "ADC" (message i)); [apply fix_inv_assign; auto|done].
  - by destruct (String.eqb (type i) "invalid_pin").
Qed.

Lemma fix_inv_fold self m0 iss st :
  fix_inv self m0 st -> fix_inv self m0 (fold_left (auto_fix_issue self) iss st).
Proof.
  revert st. induction iss as [|i r IH]; intros st H; simpl; [done|].
  by apply IH, fix_inv_step.
Qed.

Lemma fix_inv_init self m0 :
  fix_inv self m0 {| fixed_resolved := m0; fix_used := map_img m0;
                     remaining_issues := [] |}.
Proof.
  split; [|split]; simpl.
  - intros c p H. by eapply elem_of_map_img_2.
  - by intros c1 c2 p _ H1 H2.
  - intros c p H. by left.
Qed.

Lemma resolve_inv self conns :
  exists st, fst (validate_and_resolve self conns) = fixed_resolved st /\
             fix_inv self (resolved (validate self conns)) st.
Proof.
  unfold validate_and_resolve.
  destruct (existsb is_critical _).
  - unfold _auto_fix. simpl. eexists. split; [done|].
    apply fix_inv_fold, fix_inv_init.
  - eexists {| fixed_resolved := _; fix_used := _; remaining_issues := [] |}.
    split; [done|]. apply fix_inv_init.
Qed.

(** X3. The auto-fix pass never puts two components on one pin: when two
    different components share a pin in the returned mapping, both were
    already on that pin in the mapping of the validation loop. *)
Theorem no_new_shared_pin self conns c1 c2 p :
  c1 <> c2 ->
  fst (validate_and_resolve self conns) !! c1 = Some p ->
  fst (validate_and_resolve self conns) !! c2 = Some p ->
  resolved (validate self conns) !! c1 = Some p /\
  resolved (validate self conns) !! c2 = Some p.
Proof.
  destruct (resolve_inv self conns) as (st & -> & _ & Hpair & _).
  apply Hpair.
Qed.

Lemma no_new_shared_pin_witness :
  "LED" <> "Servo" /\
  fst (validate_and_resolve (init "esp32") shared_pin_input) !! "LED" = Some 2 /\
  fst (validate_and_resolve (init "esp32") shared_pin_input) !! "Servo" = Some 2 /\
  resolved (validate (init "esp32") shared_pin_input) !! "LED" = Some 2 /\
  resolved (validate (init "esp32") shared_pin_input) !! "Servo" = Some 2.
Proof.
  assert ("LED" <> "Servo") as H0 by discriminate.
  assert (fst (validate_and_resolve (init "esp32") shared_pin_input) !! "LED"
          = Some 2) as H1 by (vm_compute; reflexivity).
  assert (fst (validate_and_resolve (init "esp32") shared_pin_input) !! "Servo"
          = Some 2) as H2 by (vm_compute; reflexivity).
  split; [exact H0|]. split; [exact H1|]. split; [exact H2|].
  exact (no_new_shared_pin (init "esp32") shared_pin_input "LED" "Servo" 2 H0 H1 H2).
Defined.

(** X4. Every pin of the returned mapping is the pin the validation loop
    gave the component or a PWM- or ADC-capable pin of the board, and no
    component of the validation mapping is missing from the returned one. *)
Theorem returned_pins_origin self conns c :
  (forall p, fst (validate_and_resolve self conns) !! c = Some p ->
     resolved (validate self conns) !! c = Some p \/
     p ∈ pwm_capable (spec self) \/ p ∈ adc_capable (spec self)) /\
  (is_Some (resolved (validate self conns) !! c) ->
   is_Some (fst (validate_and_resolve self conns) !! c)).
Proof.
  split.
  - destruct (resolve_inv self conns) as (st & -> & _ & _ & Horig). apply Horig.
  - intros [p Hp]. unfold validate_and_resolve.
    destruct (existsb is_critical _); [|by eauto].
    unfold _auto_fix. simpl.
    destruct (fold_auto_fix_value self (issues (validate self conns))
                {| fixed_resolved := resolved (validate self conns);
                   fix_used := map_img (resolved (validate self conns));
                   remaining_issues := [] |} c p Hp) as (q & Hq & _).
    by eauto.
Qed.

Lemma returned_pins_origin_witness :
  fst (validate_and_resolve (init "esp32") servo_input) !! "Servo" = Some 2 /\
  (resolved (validate (init "esp32") servo_input) !! "Servo" = Some 2 \/
   2 ∈ pwm_capable (spec (init "esp32")) \/ 2 ∈ adc_capable (spec (init "esp32"))).
Proof.
  assert (fst (validate_and_resolve (init "esp32") servo_input) !! "Servo"
          = Some 2) as H by (vm_compute; reflexivity).
  split; [exact H|].
  exact (proj1 (returned_pins_origin (init "esp32") servo_input "Servo") 2 H).
Defined.

(** *** The per-pin checks *)

(** X5. [_validate_pin] raises no issue exactly for a pin of the board that
    is not reserved and has the capability its type asks for (PWM or ADC;
    any other type asks for none). *)
Theorem validate_pin_clean self pin t c :
  _validate_pin self pin t c = [] <->
  pin ∈ available_gpio (spec self) /\ pin ∉ reserved (spec self) /\
  (t = "PWM" -> pin ∈ pwm_capable (spec self)) /\
  (t = "ADC" -> pin ∈ adc_capable (spec self)).
Proof.
  unfold _validate_pin.
  destruct (decide (pin ∈ available_gpio (spec self))) as [Hav|Hav].
  2:{ rewrite (bool_decide_eq_true_2 _ Hav). naive_solver. }
  rewrite (bool_decide_eq_false_2 (pin ∉ _)) by auto.
  destruct (String.eqb_spec t "PWM") as [Hp|Hp];
    destruct (String.eqb_spec t "ADC") as [Ha|Ha];
    try (subst; discriminate);
    repeat case_bool_decide; simpl; naive_solver.
Qed.


(** *** Which components the auto-fix pass may move *)

Lemma fix_target_validate_pin self pin t comp i c :
  is_word_name comp ->
  i ∈ _validate_pin self pin t comp -> fix_target i = Some c ->
  c = comp /\ type i = "wrong_capability".
Proof.
  intros Hw. unfold _validate_pin.
  assert (forall cap caps,
            cap = "PWM" \/ cap = "ADC" ->
            fix_target (wrong_capability_issue cap caps pin comp) = Some comp)
    as Hwc.
  { intros cap caps Hcap. unfold fix_target.
    change (is_critical _ && String.eqb (type _) "wrong_capability") with true.
    cbv iota. by apply wrong_capability_component. }
  repeat (case_bool_decide || destruct (String.eqb t _)); simpl;
    rewrite ?elem_of_cons, ?elem_of_nil;
    intros Hi Ht; destruct_or?; try done; subst i;
    try discriminate Ht;
    rewrite Hwc in Ht by auto; by injection Ht as <-.
Qed.

Lemma fix_target_issues_from self seen bs i c :
  Forall (fun b => is_word_name (b_component b)) bs ->
  i ∈ issues_from self seen bs -> fix_target i = Some c ->
  exists b, b ∈ bs /\ b_component b = c /\ type i = "wrong_capability" /\
            i ∈ _validate_pin self (b_pin b) (b_type b) (b_component b).
Proof.
  intros Hw. revert seen. induction Hw as [|b r Hb Hr IH]; intros seen; simpl.
  - by intros ?%elem_of_nil.
  - unfold binding_issues. rewrite !elem_of_app. intros [[Hv|Hc]|Hrest] Ht.
    + destruct (fix_target_validate_pin _ _ _ _ _ _ Hb Hv Ht) as [-> Hty].
      exists b. split; [by left|done].
    + case_bool_decide; [|by apply elem_of_nil in Hc].
      apply list_elem_of_singleton in Hc as ->. discriminate Ht.
    + destruct (IH _ Hrest Ht) as (b' & Hin & ?). exists b'. split; [by right|done].
Qed.

(** X6. When every component name is a single word, the auto-fix pass moves
    only components that have a wrong_capability issue: a component none of
    whose bindings raises that issue is returned on the pin of its last
    declaration, also when it has conflict or invalid_pin issues and other
    components are being reassigned. *)
Theorem component_without_wrong_capability_keeps_pin self conns c :
  Forall (fun b => is_word_name (b_component b)) (bindings conns) ->
  Forall (fun b => b_component b = c ->
            Forall (fun i => type i <> "wrong_capability")
                   (_validate_pin self (b_pin b) (b_type b) (b_component b)))
         (bindings conns) ->
  fst (validate_and_resolve self conns) !! c = last_pin c (bindings conns).
Proof.
  intros Hw Hc. rewrite resolve_frame; [apply validate_resolved|].
  intros i Hi Ht. rewrite validate_issues in Hi.
  destruct (fix_target_issues_from _ _ _ _ _ Hw Hi Ht) as (b & Hb & Hbc & Hty & Hin).
  rewrite Forall_forall in Hc. specialize (Hc b Hb Hbc).
  rewrite Forall_forall in Hc. by apply (Hc i Hin).
Qed.

Lemma component_without_wrong_capability_keeps_pin_witness :
  Forall (fun b => is_word_name (b_component b)) (bindings motor_input) /\
  Forall (fun b => b_component b = "LED" ->
            Forall (fun i => type i <> "wrong_capability")
                   (_validate_pin (init "esp32") (b_pin b) (b_type b)
                      (b_component b)))
         (bindings motor_input) /\
  fst (validate_and_resolve (init "esp32") motor_input) !! "LED"
  = last_pin "LED" (bindings motor_input).
Proof.
  assert (Forall (fun b => is_word_name (b_component b)) (bindings motor_input))
    as H1.
  { repeat constructor; discriminate. }
  assert (Forall (fun b => b_component b = "LED" ->
            Forall (fun i => type i <> "wrong_capability")
                   (_validate_pin (init "esp32") (b_pin b) (b_type b)
                      (b_component b)))
         (bindings motor_input)) as H2.
  { repeat constructor; simpl; discriminate. }
  split; [exact H1|]. split; [exact H2|].
  exact (component_without_wrong_capability_keeps_pin
           (init "esp32") motor_input "LED" H1 H2).
Defined.


Lemma last_pin_is_Some c bs :
  is_Some (last_pin c bs) <-> exists b, b ∈ bs /\ b_component b = c.
Proof.
  induction bs as [|b r IH]; simpl.
  - split; [by intros [? ?]|]. by intros (b & ?%elem_of_nil & _).
  - destruct (last_pin c r) as [p|].
    + split; [|by eauto]. intros _.
      destruct (proj1 IH) as (b' & Hb' & Hc); [by eauto|].
      exists b'. split; [by right|done].
    + destruct (String.eqb_spec (b_component b) c) as [He|Hne].
      * split; [|by eauto]. intros _. exists b. split; [by left|done].
      * split; [by intros [? ?]|].
        intros (b' & [->|Hb']%elem_of_cons & Hc); [done|].
        apply IH. by eauto.
Qed.

(** X24. When every component name is a single word, the returned mapping
    has an entry exactly for the components the input declares: the
    auto-fix pass adds no component and removes none. *)
Theorem returned_components_are_declared self conns c :
  Forall (fun b => is_word_name (b_component b)) (bindings conns) ->
  is_Some (fst (validate_and_resolve self conns) !! c) <->
  exists b, b ∈ bindings conns /\ b_component b = c.
Proof.
  intros Hw. rewrite <- last_pin_is_Some. split.
  - intros Hret. destruct (last_pin c (bindings conns)) as [p|] eqn:Hl; [by eauto|].
    rewrite (resolve_frame self conns c), validate_resolved, Hl in Hret;
      [by destruct Hret|].
    intros i Hi Ht. rewrite validate_issues in Hi.
    destruct (fix_target_issues_from _ _ _ _ _ Hw Hi Ht) as (b & Hb & Hbc & _).
    assert (is_Some (last_pin c (bindings conns))) as [? ?]
      by (apply last_pin_is_Some; eauto).
    congruence.
  - intros [p Hp]. rewrite <- (validate_resolved self) in Hp.
    unfold validate_and_resolve.
    destruct (existsb is_critical _); [|by eauto].
    unfold _auto_fix. simpl.
    destruct (fold_auto_fix_value self (issues (validate self conns))
                {| fixed_resolved := resolved (validate self conns);
                   fix_used := map_img (resolved (validate self conns));
                   remaining_issues := [] |} c p Hp) as (q & Hq & _).
    by eauto.
Qed.

Lemma returned_components_are_declared_witness :
  Forall (fun b => is_word_name (b_component b)) (bindings motor_input) /\
  (is_Some (fst (validate_and_resolve (init "esp32") motor_input) !! "Motor") <->
   exists b, b ∈ bindings motor_input /\ b_component b = "Motor").
Proof.
  assert (Forall (fun b => is_word_name (b_component b)) (bindings motor_input))
    as H.
  { repeat constructor; discriminate. }
  split; [exact H|].
  exact (returned_components_are_declared (init "esp32") motor_input "Motor" H).
Defined.


(** *** The header of pin definitions *)

#[local] Instance item_le_total : Total item_le.
Proof.
  intros [c1 p1] [c2 p2]. unfold item_le, String.ltb. simpl.
  destruct (String.compare c1 c2) eqn:E.
  - apply String.compare_eq_iff in E as ->.
    destruct (N.le_ge_cases p1 p2); [left|right]; right; split; auto.
  - by left; left.
  - right. left. rewrite String.compare_antisym, E. reflexivity.
Qed.

Lemma elem_of_sorted_items (m : gmap string N) c p :
  (c, p) ∈ sorted_items m <-> m !! c = Some p.
Proof.
  unfold sorted_items. rewrite merge_sort_Permutation.
  apply elem_of_map_to_list.
Qed.

(** X23. [generate_pins_header] writes one [#define] line for every
    component of the mapping, with the component's pin, between the nine
    lines of the preamble and the three closing lines, and these lines come
    in ascending order of the component names, whatever order the mapping
    was filled in. *)
Theorem pins_header_defines upper self (m : gmap string N) :
  length (pins_header_lines upper self m) = (12 + size m)%nat /\
  take (size m) (drop 9 (pins_header_lines upper self m))
  = map (define_of upper) (sorted_items m) /\
  (forall c p, m !! c = Some p ->
     ("#define " +:+ upper c +:+ "_PIN " +:+ str_of_N p)
     ∈ pins_header_lines upper self m) /\
  (forall c p, (c, p) ∈ sorted_items m <-> m !! c = Some p) /\
  Sorted item_le (sorted_items m).
Proof.
  assert (length (sorted_items m) = size m) as Hlen.
  { unfold sorted_items. rewrite merge_sort_Permutation.
    by rewrite length_map_to_list. }
  split; [|split; [|split; [|split]]].
  - unfold pins_header_lines. rewrite !length_app, length_map, Hlen.
    simpl. lia.
  - unfold pins_header_lines. cbn [drop app]. rewrite drop_0.
    rewrite take_app_length'; [done|]. by rewrite length_map.
  - intros c p Hcp. unfold pins_header_lines.
    apply elem_of_app. right. apply elem_of_app. left.
    apply list_elem_of_fmap. exists (c, p). split; [done|].
    by apply elem_of_sorted_items.
  - intros c p. apply elem_of_sorted_items.
  - apply Sorted_merge_sort. apply _.
Qed.

Lemma pins_header_defines_witness :
  let m : gmap string N := {[ "servo" := 18; "led" := 2 ]} in
  m !! "servo" = Some 18 /\
  ("#define " +:+ upper_ascii "servo" +:+ "_PIN " +:+ str_of_N 18)
  ∈ pins_header_lines upper_ascii (init "esp32") m.
Proof.
  intros m.
  assert (m !! "servo" = Some 18) as H by (vm_compute; reflexivity).
  split; [exact H|].
  exact (proj1 (proj2 (proj2 (pins_header_defines upper_ascii (init "esp32") m)))
           "servo" 18 H).
Defined.

End HALExtra.

(** ** Further properties of the pin mapper *)

Module PinMapperExtra.
Import PyText PyTextFacts PinMapper PinMapperProps.

(** Closed decidable facts are settled by evaluation. *)
Ltac by_compute_mem :=
  match goal with
  | |- ?P => apply (bool_decide_eq_true_1 P); vm_compute; reflexivity
  end.

(** *** [detect_conflicts] *)

Lemma pin_counts_lookup self pin :
  pin_counts self !! pin = (fun _ => 1%nat) <$> (pin_usage self !! pin).
Proof.
  unfold pin_counts.
  apply (map_fold_weak_ind
           (fun (counts : gmap N nat) (m : gmap N string) =>
              counts !! pin = (fun _ => 1%nat) <$> (m !! pin))).
  - by rewrite !lookup_empty.
  - intros i x m counts Hnone IH.
    destruct (decide (i = pin)) as [->|Hne].
    + rewrite !lookup_insert_eq. rewrite Hnone in IH. by rewrite IH.
    + by rewrite !lookup_insert_ne.
Qed.

(** X7. [detect_conflicts] never reports a conflict: the usage table holds
    each pin once, so every count is 1 and the returned list is empty for
    every mapper and board; the conflicts of [get_pin_usage_map] are empty
    as well. *)
Theorem detect_conflicts_always_empty self board_type :
  detect_conflicts self board_type = [] /\
  map_conflicts (get_pin_usage_map self board_type) = [].
Proof.
  assert (detect_conflicts self board_type = []) as H; [|by split].
  unfold detect_conflicts.
  assert (Forall (fun pc : N * nat => snd pc = 1%nat)
                 (map_to_list (pin_counts self))) as Hall.
  { apply Forall_forall. intros [pin n] Hin%elem_of_map_to_list.
    rewrite pin_counts_lookup in Hin. simpl.
    destruct (pin_usage self !! pin); simpl in Hin; congruence. }
  induction Hall as [|pc l Hpc _ IH]; simpl; [done|].
  by rewrite Hpc, IH.
Qed.


(** *** The scan for an unused pin *)

Lemma find_unused_some self l p :
  find (fun pin => bool_decide (pin_usage self !! pin = None)) l = Some p ->
  unused self p /\
  exists l1 l2, l = l1 ++ p :: l2 /\ forall q, q ∈ l1 -> ~ unused self q.
Proof.
  induction l as [|a r IH]; simpl; [done|].
  case_bool_decide as Ha.
  - intros [= ->]. split; [done|]. exists [], r. split; [done|].
    intros q Hq. inversion Hq.
  - intros [Hp (l1 & l2 & -> & Hl)]%IH. split; [done|].
    exists (a :: l1), l2. split; [done|].
    intros q [->|Hq]%elem_of_cons; auto.
Qed.

Lemma find_unused_none self l :
  find (fun pin => bool_decide (pin_usage self !! pin = None)) l = None ->
  forall q, q ∈ l -> ~ unused self q.
Proof.
  induction l as [|a r IH]; simpl.
  - intros _ q Hq. inversion Hq.
  - case_bool_decide as Ha; [done|].
    intros H q [->|Hq]%elem_of_cons; auto.
Qed.

Lemma first_unused_picks self l : l <> [] -> picks self l (first_unused self l).
Proof.
  intros Hne. unfold first_unused.
  destruct (find _ l) as [p|] eqn:Hf.
  - destruct (find_unused_some _ _ _ Hf) as [Hp (l1 & l2 & Heq & Hl)].
    split; [|split].
    + rewrite Heq. apply elem_of_app. right. by left.
    + intros _. split; [done|]. by exists l1, l2.
    + intros Hall. destruct (Hall p); [|done].
      rewrite Heq. apply elem_of_app. right. by left.
  - pose proof (find_unused_none _ _ Hf) as Hall.
    destruct l as [|a r]; [done|]. simpl. split; [by left|]. split; [|done].
    intros (q & Hq & Hu). by destruct (Hall q).
Qed.

Lemma gpio_candidates_nonempty board_type : gpio_candidates board_type <> [].
Proof.
  unfold gpio_candidates, defaults.
  repeat (rewrite lookup_insert; case_decide; [done|]).
  by rewrite lookup_empty.
Qed.

Lemma pwm_candidates_nonempty board_type : pwm_candidates board_type <> [].
Proof.
  unfold pwm_candidates, pwm_pins.
  repeat (rewrite lookup_insert; case_decide; [done|]).
  by rewrite lookup_empty.
Qed.

Lemma find_best_gpio_picks self board_type :
  picks self (gpio_candidates board_type) (_find_best_gpio self board_type).
Proof. apply first_unused_picks, gpio_candidates_nonempty. Qed.

Lemma find_pwm_pin_picks self board_type :
  picks self (pwm_candidates board_type) (_find_pwm_pin self board_type).
Proof. apply first_unused_picks, pwm_candidates_nonempty. Qed.

(** X8. For every mapper and board, [_find_best_gpio] and [_find_pwm_pin]
    return a pin of the board's candidate list (for an unregistered board
    the lists [2] and [13]): the first unused candidate when one is unused,
    and otherwise the first candidate, a pin that is already in use. The
    fallback [available_pins[0]] never fails, the lists being non-empty. *)
Theorem find_pin_picks_candidate self board_type :
  picks self (gpio_candidates board_type) (_find_best_gpio self board_type) /\
  picks self (pwm_candidates board_type) (_find_pwm_pin self board_type).
Proof. split; [apply find_best_gpio_picks | apply find_pwm_pin_picks]. Qed.

Lemma find_pin_picks_candidate_witness :
  (exists q, q ∈ gpio_candidates "esp32" /\ unused init q) /\
  unused init (_find_best_gpio init "esp32").
Proof.
  assert (exists q, q ∈ gpio_candidates "esp32" /\ unused init q) as H.
  { exists 2. split; [by_compute_mem|reflexivity]. }
  split; [exact H|].
  exact (proj1 (proj1 (proj2 (proj1 (find_pin_picks_candidate init "esp32"))) H)).
Defined.


(** *** The usage table after a call *)

Lemma mark_used_frame pt (assigned : gmap string N) (usage : gmap N string) pin :
  (forall role, assigned !! role <> Some pin) ->
  mark_used pt assigned usage !! pin = usage !! pin.
Proof.
  unfold mark_used.
  apply (map_fold_weak_ind
           (fun (r : gmap N string) (m : gmap string N) =>
              (forall role, m !! role <> Some pin) -> r !! pin = usage !! pin)).
  - done.
  - intros role p m r Hnone IH Hno.
    assert (p <> pin) as Hne.
    { intros ->. apply (Hno role). by rewrite lookup_insert_eq. }
    rewrite lookup_insert_ne by done. apply IH.
    intros role' Hr. apply (Hno role').
    destruct (decide (role = role')) as [<-|Hd]; [congruence|].
    by rewrite lookup_insert_ne.
Qed.

(** X9. [auto_assign_pins] changes the usage table at the pins it returns
    and nowhere else: every returned pin is recorded under the peripheral
    type of the call (replacing the record of an earlier claimant), and the
    record of every other pin is as before the call. *)
Theorem auto_assign_updates_only_returned self board_type peripheral_type pin :
  let r := auto_assign_pins self board_type peripheral_type in
  ((exists role, fst r !! role = Some pin) ->
   pin_usage (snd r) !! pin = Some peripheral_type) /\
  ((forall role, fst r !! role <> Some pin) ->
   pin_usage (snd r) !! pin = pin_usage self !! pin).
Proof.
  intros r. unfold r, auto_assign_pins. simpl. split.
  - intros [role Hr]. by eapply mark_used_spec.
  - apply mark_used_frame.
Qed.

Lemma auto_assign_updates_only_returned_witness :
  let r := auto_assign_pins init "esp32" "uart" in
  (forall role, fst r !! role <> Some 2) /\
  pin_usage (snd r) !! 2 = pin_usage init !! 2.
Proof.
  assert (forall role, fst (auto_assign_pins init "esp32" "uart") !! role <> Some 2)
    as H.
  { intros role. change (fst (auto_assign_pins init "esp32" "uart"))
      with (uart_esp32 ∪ (∅ : gmap string N)).
    rewrite (right_id_L ∅ (∪)). unfold uart_esp32.
    rewrite lookup_insert. case_decide; [discriminate|].
    rewrite lookup_insert. case_decide; [discriminate|].
    by rewrite lookup_empty. }
  split; [exact H|].
  exact (proj2 (auto_assign_updates_only_returned init "esp32" "uart" 2) H).
Defined.

(** *** Available pins *)

Lemma elem_of_available self board_type p :
  p ∈ _get_available_pins self board_type <->
  p ∈ default (range 0 40) (all_pins !! board_type) /\ unused self p.
Proof.
  unfold _get_available_pins, unused.
  rewrite !list_elem_of_In, List.filter_In, bool_decide_eq_true. done.
Qed.

(** X10. After [auto_assign_pins], none of the returned pins is listed by
    [_get_available_pins], for any board, and no pin is listed that was not
    listed before the call: assigning only shrinks the available pins. *)
Theorem assigned_pins_not_available self board_type peripheral_type board p :
  let r := auto_assign_pins self board_type peripheral_type in
  ((exists role, fst r !! role = Some p) ->
   p ∉ _get_available_pins (snd r) board) /\
  (p ∈ _get_available_pins (snd r) board -> p ∈ _get_available_pins self board).
Proof.
  intros r. rewrite !elem_of_available. split.
  - intros [role Hr] [_ Hu]. unfold unused in Hu.
    unfold r, auto_assign_pins in Hr, Hu. simpl in Hr, Hu.
    apply (proj1 (mark_used_spec peripheral_type _ (pin_usage self))) in Hr.
    congruence.
  - intros [Hb Hu]. split; [done|]. unfold unused in *.
    destruct (pin_usage self !! p) eqn:Hp; [|done].
    destruct (proj2 (mark_used_spec peripheral_type
                       (assigned_for self board_type peripheral_type)
                       (pin_usage self)) p) as [x Hx]; [by rewrite Hp|].
    unfold r, auto_assign_pins in Hu. simpl in Hu. congruence.
Qed.

Lemma assigned_pins_not_available_witness :
  let r := auto_assign_pins init "esp32" "led" in
  (exists role, fst r !! role = Some 2) /\
  (2 ∉ _get_available_pins (snd r) "esp32").
Proof.
  assert (exists role, fst (auto_assign_pins init "esp32" "led") !! role = Some 2)
    as H by (exists "LED"; vm_compute; reflexivity).
  split; [exact H|].
  exact (proj1 (assigned_pins_not_available init "esp32" "led" "esp32" 2) H).
Defined.


(** *** Two requests in a row *)

Lemma assigned_for_table self board_type peripheral_type :
  uses_table peripheral_type = true ->
  exists role,
    assigned_for self board_type peripheral_type
    = {[role := first_unused self (candidates board_type peripheral_type)]}.
Proof.
  unfold uses_table, assigned_for, candidates, _find_best_gpio, _find_pwm_pin,
    gpio_candidates, pwm_candidates.
  destruct (String.eqb_spec peripheral_type "led") as [->|?].
  { intros _. exists "LED". by rewrite insert_empty. }
  destruct (String.eqb_spec peripheral_type "dht22") as [->|?].
  { intros _. exists "DATA". by rewrite insert_empty. }
  destruct (String.eqb_spec peripheral_type "dht11") as [->|?].
  { intros _. exists "DATA". by rewrite insert_empty. }
  destruct (String.eqb_spec peripheral_type "servo") as [->|?]; [|done].
  intros _. exists "SERVO". by rewrite insert_empty.
Qed.

Lemma candidates_nonempty board_type peripheral_type :
  candidates board_type peripheral_type <> [].
Proof.
  unfold candidates. destruct (String.eqb peripheral_type "servo").
  - apply pwm_candidates_nonempty.
  - apply gpio_candidates_nonempty.
Qed.

(** X11. For the peripheral types that consult the usage table (led, dht11,
    dht22, servo): when besides the pin returned by a call another candidate
    of the board was unused, the same call repeated right after returns a
    different pin, one that was unused before the first call. *)
Theorem repeated_request_gets_new_pin self board_type peripheral_type role p1 :
  uses_table peripheral_type = true ->
  fst (auto_assign_pins self board_type peripheral_type) !! role = Some p1 ->
  (exists q, q ∈ candidates board_type peripheral_type /\ q <> p1 /\ unused self q) ->
  exists p2,
    fst (auto_assign_pins
           (snd (auto_assign_pins self board_type peripheral_type))
           board_type peripheral_type) !! role = Some p2 /\
    p2 <> p1 /\ unused self p2 /\ p2 ∈ candidates board_type peripheral_type.
Proof.
  intros Ht Hr (q & Hq & Hne & Hu).
  set (l := candidates board_type peripheral_type) in *.
  unfold auto_assign_pins in *. simpl in *.
  destruct (assigned_for_table self board_type peripheral_type Ht) as [role1 H1].
  fold l in H1. rewrite H1 in Hr |- *.
  apply lookup_singleton_Some in Hr as [<- Hp1].
  unfold mark_used. rewrite map_fold_singleton.
  set (self1 := {| pin_usage := <[first_unused self l := peripheral_type]>
                                  (pin_usage self) |}).
  destruct (assigned_for_table self1 board_type peripheral_type Ht) as [role2 H2].
  fold l in H2.
  assert (role2 = role1) as ->.
  { destruct (assigned_for_table self board_type peripheral_type Ht) as [r' Hr'].
    revert H1 H2. unfold assigned_for, uses_table in *.
    repeat (destruct (String.eqb peripheral_type _); simpl);
      rewrite ?insert_empty; try done;
      intros Ha Hb;
      apply (f_equal dom) in Ha, Hb; rewrite !dom_singleton_L in Ha, Hb;
      set_solver. }
  rewrite H2. exists (first_unused self1 l).
  split; [by rewrite lookup_singleton_eq|].
  assert (unused self1 q) as Hq1.
  { unfold unused, self1. simpl. rewrite lookup_insert_ne; [done|]. by rewrite Hp1. }
  destruct (first_unused_picks self1 l (candidates_nonempty _ _))
    as (Hin & Hfree & _).
  destruct Hfree as [Hu2' _]; [by exists q|].
  assert (<[first_unused self l := peripheral_type]> (pin_usage self)
            !! first_unused self1 l = None) as Hu2 by exact Hu2'.
  clear Hu2'.
  split; [|split; [|done]].
  - intros Heq. rewrite Heq, Hp1, lookup_insert_eq in Hu2. discriminate.
  - unfold unused. destruct (decide (first_unused self l = first_unused self1 l))
      as [Heq|Hd].
    + rewrite <- Heq, lookup_insert_eq in Hu2. discriminate.
    + by rewrite lookup_insert_ne in Hu2.
Qed.

Lemma repeated_request_gets_new_pin_witness :
  uses_table "led" = true /\
  fst (auto_assign_pins init "esp32" "led") !! "LED" = Some 2 /\
  (exists q, q ∈ candidates "esp32" "led" /\ q <> 2 /\ unused init q) /\
  exists p2,
    fst (auto_assign_pins (snd (auto_assign_pins init "esp32" "led"))
           "esp32" "led") !! "LED" = Some p2 /\
    p2 <> 2 /\ unused init p2 /\ p2 ∈ candidates "esp32" "led".
Proof.
  assert (uses_table "led" = true) as H1 by reflexivity.
  assert (fst (auto_assign_pins init "esp32" "led") !! "LED" = Some 2) as H2
    by (vm_compute; reflexivity).
  assert (exists q, q ∈ candidates "esp32" "led" /\ q <> 2 /\ unused init q) as H3.
  { exists 4. split; [by_compute_mem|]. split; [discriminate|reflexivity]. }
  split; [exact H1|]. split; [exact H2|]. split; [exact H3|].
  exact (repeated_request_gets_new_pin init "esp32" "led" "LED" 2 H1 H2 H3).
Defined.


(** *** The mapper against the board specifications of the HAL *)

Lemma picked_in_list self l p (P : N -> Prop) :
  picks self l p -> Forall P l -> P p.
Proof. intros [Hin _] Hall. rewrite Forall_forall in Hall. auto. Qed.

(** X12. On the boards both modules know, esp32 and arduino_uno, every pin
    the mapper hands out for an LED or a sensor passes the per-pin checks
    of the HAL without any issue, every pin it hands out for a servo passes
    them as a PWM pin, and its I2C pins are the I2C pins of the HAL
    specification, whatever the usage table holds. *)
Theorem mapper_pins_pass_hal_checks self board_type c :
  board_type = "esp32" \/ board_type = "arduino_uno" ->
  HAL._validate_pin (HAL.init board_type) (_find_best_gpio self board_type)
    "GPIO" c = [] /\
  HAL._validate_pin (HAL.init board_type) (_find_pwm_pin self board_type)
    "PWM" c = [] /\
  _find_i2c_pins board_type = HAL.i2c (HAL.spec (HAL.init board_type)).
Proof.
  intros Hb.
  assert (Forall (fun p => HAL._validate_pin (HAL.init board_type) p "GPIO" c = [])
                 (gpio_candidates board_type)) as Hg.
  { destruct Hb as [-> | ->].
    - let l := eval vm_compute in (gpio_candidates "esp32") in
      change (gpio_candidates "esp32") with l.
      repeat constructor; vm_compute; reflexivity.
    - let l := eval vm_compute in (gpio_candidates "arduino_uno") in
      change (gpio_candidates "arduino_uno") with l.
      repeat constructor; vm_compute; reflexivity. }
  assert (Forall (fun p => HAL._validate_pin (HAL.init board_type) p "PWM" c = [])
                 (pwm_candidates board_type)) as Hp.
  { destruct Hb as [-> | ->].
    - let l := eval vm_compute in (pwm_candidates "esp32") in
      change (pwm_candidates "esp32") with l.
      repeat constructor; vm_compute; reflexivity.
    - let l := eval vm_compute in (pwm_candidates "arduino_uno") in
      change (pwm_candidates "arduino_uno") with l.
      repeat constructor; vm_compute; reflexivity. }
  split; [|split].
  - exact (picked_in_list self _ _ _ (find_best_gpio_picks self board_type) Hg).
  - exact (picked_in_list self _ _ _ (find_pwm_pin_picks self board_type) Hp).
  - destruct Hb as [-> | ->]; vm_compute; reflexivity.
Qed.

Lemma mapper_pins_pass_hal_checks_witness :
  ("esp32" = "esp32" \/ "esp32" = "arduino_uno") /\
  HAL._validate_pin (HAL.init "esp32") (_find_best_gpio init "esp32")
    "GPIO" "LED" = [] /\
  HAL._validate_pin (HAL.init "esp32") (_find_pwm_pin init "esp32")
    "PWM" "LED" = [] /\
  _find_i2c_pins "esp32" = HAL.i2c (HAL.spec (HAL.init "esp32")).
Proof.
  assert ("esp32" = "esp32" \/ "esp32" = "arduino_uno") as H by (left; reflexivity).
  split; [exact H|].
  exact (mapper_pins_pass_hal_checks init "esp32" "LED" H).
Defined.

End PinMapperExtra.

(** ** Further properties of the text primitives *)

Module PyTextExtra.
Import PyText PyTextFacts.

#[local] Arguments String.append !_ _ / : simpl nomatch.

Lemma drop_while_all p s : all_chars p s = true -> drop_while p s = "".
Proof.
  induction s as [|c t IH]; simpl; [done|].
  intros [Hc Ht]%andb_true_iff. rewrite Hc. auto.
Qed.

Lemma drop_while_app p pre s :
  all_chars p pre = true -> drop_while p (pre +:+ s) = drop_while p s.
Proof.
  induction pre as [|c t IH]; simpl; [done|].
  intros [Hc Ht]%andb_true_iff. rewrite Hc. auto.
Qed.

Lemma list_of_append a b :
  list_ascii_of_string (a +:+ b)
  = list_ascii_of_string a ++ list_ascii_of_string b.
Proof. induction a as [|c t IH]; simpl; [done|]. by rewrite IH. Qed.

Lemma string_of_app l k :
  string_of_list_ascii (l ++ k)
  = string_of_list_ascii l +:+ string_of_list_ascii k.
Proof. induction l as [|c t IH]; simpl; [done|]. by rewrite IH. Qed.

Lemma string_rev_app a b : string_rev (a +:+ b) = string_rev b +:+ string_rev a.
Proof. unfold string_rev. by rewrite list_of_append, rev_app_distr, string_of_app. Qed.

Lemma string_rev_involutive s : string_rev (string_rev s) = s.
Proof.
  unfold string_rev.
  by rewrite list_ascii_of_string_of_list_ascii, rev_involutive,
    string_of_list_ascii_of_string.
Qed.

Lemma all_chars_app p a b :
  all_chars p (a +:+ b) = all_chars p a && all_chars p b.
Proof. induction a as [|c t IH]; simpl; [done|]. by rewrite IH, andb_assoc. Qed.

Lemma all_chars_rev p s : all_chars p (string_rev s) = all_chars p s.
Proof.
  induction s as [|c t IH]; [done|].
  change (String c t) with (String c "" +:+ t).
  rewrite string_rev_app, !all_chars_app, IH.
  change (string_rev (String c "")) with (String c "").
  apply andb_comm.
Qed.

(** [strip] of a blank string is empty. *)
Lemma strip_blank s : all_chars is_space s = true -> strip s = "".
Proof. intros H. unfold strip. by rewrite (drop_while_all _ _ H). Qed.

Lemma drop_while_clean s : no_space_ahead s -> drop_while is_space s = s.
Proof. destruct s as [|c t]; simpl; [done|]. by intros ->. Qed.

Lemma no_space_ahead_app s t : s <> "" -> no_space_ahead s -> no_space_ahead (s +:+ t).
Proof. by destruct s. Qed.

(** A string with no white space at either end, padded with white space,
    is what [strip] gives back. *)
Lemma strip_padded pre s post :
  all_chars is_space pre = true -> all_chars is_space post = true ->
  trimmed s -> strip (pre +:+ s +:+ post) = s.
Proof.
  intros Hpre Hpost [Hs Hr]. unfold strip.
  rewrite (drop_while_app _ _ _ Hpre).
  destruct (decide (s = "")) as [->|Hne].
  - simpl. by rewrite (drop_while_all _ _ Hpost).
  - rewrite (drop_while_clean (s +:+ post)) by (by apply no_space_ahead_app).
    rewrite string_rev_app, drop_while_app by (by rewrite all_chars_rev).
    by rewrite drop_while_clean, string_rev_involutive.
Qed.

(** [sub in s] holds for [s] itself and for any string [s] is a prefix
    of. *)
Lemma strip_prefix_app p s : strip_prefix p (p +:+ s) = Some s.
Proof.
  induction p as [|c t IH]; simpl; [by destruct s|].
  by rewrite Ascii.eqb_refl.
Qed.

Lemma contains_prefix p s : contains p (p +:+ s) = true.
Proof.
  destruct (p +:+ s) eqn:E; unfold contains;
    rewrite <- E, strip_prefix_app; reflexivity.
Qed.

Lemma contains_refl s : contains s s = true.
Proof. rewrite <- (append_empty_r s) at 2. apply contains_prefix. Qed.


(** [sub in s] holds exactly when [s] is [sub] with something before and
    after it. *)
Lemma strip_prefix_some p s r : strip_prefix p s = Some r <-> s = p +:+ r.
Proof.
  revert s. induction p as [|c t IH]; intros s; simpl.
  - split; congruence.
  - destruct s as [|a u]; [split; discriminate|].
    destruct (Ascii.eqb_spec c a) as [->|Hne].
    + rewrite IH. split; congruence.
    + split; [discriminate|]. intros [= ? ?]. congruence.
Qed.

Lemma contains_iff sub s :
  contains sub s = true <-> exists pre post, s = pre +:+ sub +:+ post.
Proof.
  split.
  - induction s as [|c t IH].
    + unfold contains. destruct (strip_prefix sub "") as [r|] eqn:E; [|done].
      intros _. apply strip_prefix_some in E. by exists "", r.
    + unfold contains; fold contains.
      destruct (strip_prefix sub (String c t)) as [r|] eqn:E.
      * intros _. apply strip_prefix_some in E. by exists "", r.
      * intros (pre & post & ->)%IH. by exists (String c pre), post.
  - intros (pre & post & ->). induction pre as [|c t IH].
    + change ("" +:+ sub +:+ post) with (sub +:+ post). apply contains_prefix.
    + change (String c t +:+ sub +:+ post) with (String c (t +:+ sub +:+ post)).
      unfold contains; fold contains. rewrite IH.
      by destruct (strip_prefix sub _).
Qed.

Lemma append_assoc (a b c : string) : (a +:+ b) +:+ c = a +:+ b +:+ c.
Proof. induction a; simpl; congruence. Qed.

Lemma contains_app_l sub a b : contains sub a = true -> contains sub (a +:+ b) = true.
Proof.
  rewrite !contains_iff. intros (pre & post & ->).
  exists pre, (post +:+ b). by rewrite !append_assoc.
Qed.

Lemma contains_app_r sub a b : contains sub b = true -> contains sub (a +:+ b) = true.
Proof.
  rewrite !contains_iff. intros (pre & post & ->).
  exists (a +:+ pre), post. by rewrite !append_assoc.
Qed.

Lemma contains_trans a b c :
  contains a b = true -> contains b c = true -> contains a c = true.
Proof.
  rewrite !contains_iff. intros (p1 & q1 & ->) (p2 & q2 & ->).
  exists (p2 +:+ p1), (q1 +:+ q2). by rewrite !append_assoc.
Qed.

Lemma lower_app a b : lower (a +:+ b) = lower a +:+ lower b.
Proof. induction a as [|c t IH]; simpl; [done|]. by rewrite IH. Qed.

Lemma contains_lower sub s :
  contains sub s = true -> contains (lower sub) (lower s) = true.
Proof.
  rewrite !contains_iff. intros (pre & post & ->).
  exists (lower pre), (lower post). by rewrite !lower_app.
Qed.


Lemma contains_all_chars p sub s :
  contains sub s = true -> all_chars p s = true -> all_chars p sub = true.
Proof.
  rewrite contains_iff. intros (pre & post & ->).
  rewrite !all_chars_app. by intros [_ [? _]%andb_true_iff]%andb_true_iff.
Qed.

(** No capital A comes out of [lower]. *)
Lemma lower_has_no_capital_A s :
  all_chars (fun c => negb (Ascii.eqb c "A")) (lower s) = true.
Proof.
  induction s as [|c t IH]; simpl; [done|]. rewrite IH, andb_true_r.
  by destruct c as [[] [] [] [] [] [] [] []].
Qed.

Lemma join_contains sep l1 x l2 : contains x (join sep (l1 ++ x :: l2)) = true.
Proof.
  induction l1 as [|a l1 IH]; simpl.
  - destruct l2; [apply contains_refl | apply contains_prefix].
  - destruct (l1 ++ x :: l2) eqn:E; [by destruct l1|].
    by do 2 apply contains_app_r.
Qed.


(** [split] and [join] on line feeds. *)
Lemma split_lines_nonempty s : split_lines s <> [].
Proof.
  induction s as [|c t IH]; simpl; [done|].
  destruct (Ascii.eqb c _); [done|]. by destruct (split_lines t).
Qed.





Lemma join_split_lines s : join nl (split_lines s) = s.
Proof.
  induction s as [|c t IH]; cbn [split_lines]; [done|].
  destruct (Ascii.eqb_spec c (ascii_of_N 10)) as [->|Hc].
  - pose proof (split_lines_nonempty t).
    destruct (split_lines t) as [|x r] eqn:E; [done|].
    change (join nl ("" :: x :: r)) with ("" +:+ nl +:+ join nl (x :: r)).
    by rewrite IH.
  - pose proof (split_lines_nonempty t).
    destruct (split_lines t) as [|x r] eqn:E; [done|].
    destruct r as [|y r].
    + change (join nl [String c x]) with (String c (join nl [x])). by rewrite IH.
    + change (join nl (String c x :: y :: r))
        with (String c (join nl (x :: y :: r))). by rewrite IH.
Qed.

End PyTextExtra.

(** ** Further properties of the pinout lookup *)

Module BoardPinoutsExtra.
Import PyText PyTextFacts PyTextExtra BoardPinouts.

#[local] Arguments String.append !_ _ / : simpl nomatch.

Lemma registered_cases (kv : string * Pinout) :
  kv ∈ BOARD_PINOUTS ->
  kv = ("ESP32", esp32_pinout) \/ kv = ("Arduino Nano", nano_pinout) \/
  kv = ("Arduino Uno", uno_pinout) \/ kv = ("Arduino Mega", mega_pinout) \/
  kv = ("ESP8266", esp8266_pinout).
Proof.
  unfold BOARD_PINOUTS. rewrite !elem_of_cons, elem_of_nil. naive_solver.
Qed.

Lemma lookup_stripped s :
  get_board_pinout s
  = match find (fun kv => String.eqb (fst kv) (strip s)) BOARD_PINOUTS with
    | Some kv => snd kv
    | None =>
        match find (fuzzy_match (lower (strip s))) BOARD_PINOUTS with
        | Some kv => snd kv
        | None => generic_pinout (strip s)
        end
    end.
Proof. reflexivity. Qed.

(** X13. Every name of [get_all_supported_boards] looks up its own pinout,
    also with white space around it. *)
Theorem supported_board_finds_its_pinout k pre post :
  k ∈ get_all_supported_boards ->
  all_chars is_space pre = true -> all_chars is_space post = true ->
  exists v, (k, v) ∈ BOARD_PINOUTS /\ get_board_pinout (pre +:+ k +:+ post) = v.
Proof.
  intros Hk Hpre Hpost. unfold get_all_supported_boards in Hk.
  apply list_elem_of_fmap in Hk as ([k' v] & -> & Hin). simpl.
  exists v. split; [done|].
  rewrite lookup_stripped.
  apply registered_cases in Hin.
  destruct Hin as [H|[H|[H|[H|H]]]]; injection H as -> ->;
    (rewrite strip_padded; [reflexivity|done|done|split; reflexivity]).
Qed.

Lemma supported_board_finds_its_pinout_witness :
  "Arduino Uno" ∈ get_all_supported_boards /\
  all_chars is_space " " = true /\ all_chars is_space "" = true /\
  exists v, ("Arduino Uno", v) ∈ BOARD_PINOUTS /\
            get_board_pinout (" " +:+ "Arduino Uno" +:+ "") = v.
Proof.
  assert ("Arduino Uno" ∈ get_all_supported_boards) as H1.
  { unfold get_all_supported_boards, BOARD_PINOUTS. simpl.
    rewrite !elem_of_cons. auto. }
  assert (all_chars is_space " " = true) as H2 by reflexivity.
  assert (all_chars is_space "" = true) as H3 by reflexivity.
  split; [exact H1|]. split; [exact H2|]. split; [exact H3|].
  exact (supported_board_finds_its_pinout "Arduino Uno" " " "" H1 H2 H3).
Defined.

(** X14. An empty or blank board name does not get the generic pinout: the
    empty string is a substring of every key, so the lookup returns the
    first registered pinout, the ESP32 one. *)
Theorem blank_name_gets_esp32 s :
  all_chars is_space s = true -> get_board_pinout s = esp32_pinout.
Proof.
  intros H. rewrite lookup_stripped, (strip_blank _ H). reflexivity.
Qed.

Lemma blank_name_gets_esp32_witness :
  all_chars is_space "  " = true /\ get_board_pinout "  " = esp32_pinout.
Proof.
  assert (all_chars is_space "  " = true) as H by reflexivity.
  split; [exact H|]. exact (blank_name_gets_esp32 "  " H).
Defined.

(** X15. The lookup ignores case: a name that, stripped and lower-cased, is
    the lower-cased key of a registered board gets the pinout of that
    board. *)
Theorem lookup_ignores_case kv s :
  kv ∈ BOARD_PINOUTS -> lower (strip s) = lower (fst kv) ->
  get_board_pinout s = snd kv.
Proof.
  intros Hin Hl. rewrite lookup_stripped.
  apply registered_cases in Hin.
  unfold BOARD_PINOUTS. cbn [find fst snd].
  destruct Hin as [H|[H|[H|[H|H]]]]; subst kv; cbn [fst snd] in *;
    repeat match goal with
      | |- context [String.eqb ?k (strip s)] =>
          destruct (String.eqb_spec k (strip s)) as [Heq|_];
          [rewrite <- Heq in Hl; vm_compute in Hl;
           first [discriminate Hl | reflexivity]|]
      end;
    rewrite ?Hl; reflexivity.
Qed.

Lemma lookup_ignores_case_witness :
  ("Arduino Mega", mega_pinout) ∈ BOARD_PINOUTS /\
  lower (strip "ARDUINO mega") = lower (fst ("Arduino Mega", mega_pinout)) /\
  get_board_pinout "ARDUINO mega" = snd ("Arduino Mega", mega_pinout).
Proof.
  assert (("Arduino Mega", mega_pinout) ∈ BOARD_PINOUTS) as H1.
  { unfold BOARD_PINOUTS. rewrite !elem_of_cons. auto. }
  assert (lower (strip "ARDUINO mega") = lower (fst ("Arduino Mega", mega_pinout)))
    as H2 by reflexivity.
  split; [exact H1|]. split; [exact H2|].
  exact (lookup_ignores_case ("Arduino Mega", mega_pinout) "ARDUINO mega" H1 H2).
Defined.

(** X16. The generic pinout, with pins 0..31 and the stripped name, is
    returned exactly for the names that match no registered key as a
    substring in either direction (case ignored); every other name gets a
    registered pinout. *)
Theorem generic_pinout_iff_no_match s :
  (Forall (fun kv => fuzzy_match (lower (strip s)) kv = false) BOARD_PINOUTS ->
   get_board_pinout s = generic_pinout (strip s) /\
   pins (get_board_pinout s) = Some (range 0 32)) /\
  (layout (get_board_pinout s) = "generic" ->
   Forall (fun kv => fuzzy_match (lower (strip s)) kv = false) BOARD_PINOUTS) /\
  (layout (get_board_pinout s) <> "generic" ->
   exists kv, kv ∈ BOARD_PINOUTS /\ get_board_pinout s = snd kv).
Proof.
  rewrite lookup_stripped.
  destruct (find (fun kv => String.eqb (fst kv) (strip s)) BOARD_PINOUTS)
    as [kv|] eqn:Hd.
  - apply find_some in Hd as [Hin Heq]. apply String.eqb_eq in Heq.
    apply list_elem_of_In in Hin.
    split; [|split].
    + intros Hall. rewrite Forall_forall in Hall. specialize (Hall kv Hin).
      unfold fuzzy_match in Hall. rewrite Heq, contains_refl in Hall. done.
    + intros Hl. apply registered_cases in Hin.
      destruct Hin as [H|[H|[H|[H|H]]]]; subst kv; discriminate Hl.
    + intros _. by exists kv.
  - destruct (find (fuzzy_match (lower (strip s))) BOARD_PINOUTS) as [kv|] eqn:Hf.
    + apply find_some in Hf as [Hin Hm]. apply list_elem_of_In in Hin.
      split; [|split].
      * intros Hall. rewrite Forall_forall in Hall. rewrite (Hall kv Hin) in Hm.
        done.
      * intros Hl. apply registered_cases in Hin.
        destruct Hin as [H|[H|[H|[H|H]]]]; subst kv; discriminate Hl.
      * intros _. by exists kv.
    + split; [done|]. split; [|done].
      intros _. apply Forall_forall. intros kv Hin.
      apply list_elem_of_In in Hin. by apply (find_none _ _ Hf).
Qed.

Lemma generic_pinout_iff_no_match_witness :
  Forall (fun kv => fuzzy_match (lower (strip "unknown_board_xyz")) kv = false)
         BOARD_PINOUTS /\
  get_board_pinout "unknown_board_xyz"
  = generic_pinout (strip "unknown_board_xyz") /\
  pins (get_board_pinout "unknown_board_xyz") = Some (range 0 32).
Proof.
  assert (Forall (fun kv => fuzzy_match (lower (strip "unknown_board_xyz")) kv
                            = false) BOARD_PINOUTS) as H
    by (repeat constructor).
  split; [exact H|].
  exact (proj1 (generic_pinout_iff_no_match "unknown_board_xyz") H).
Defined.


(** X17. ESP32 is the first key of the table, so every name that contains
    esp32 (case ignored, after stripping) gets the ESP32 pinout, whatever
    else the name contains. *)
Theorem name_containing_esp32 s :
  contains "esp32" (lower (strip s)) = true -> get_board_pinout s = esp32_pinout.
Proof.
  intros H. rewrite lookup_stripped. unfold BOARD_PINOUTS. cbn [find fst snd].
  repeat match goal with
    | |- context [String.eqb ?k (strip s)] =>
        destruct (String.eqb_spec k (strip s)) as [Heq|_];
        [rewrite <- Heq in H; vm_compute in H;
         first [discriminate H | reflexivity]|]
    end.
  unfold fuzzy_match at 1. cbn [fst].
  change (lower "ESP32") with "esp32". by rewrite H, orb_true_r.
Qed.

Lemma name_containing_esp32_witness :
  contains "esp32" (lower (strip "My ESP32 Arduino Nano clone")) = true /\
  get_board_pinout "My ESP32 Arduino Nano clone" = esp32_pinout.
Proof.
  assert (contains "esp32" (lower (strip "My ESP32 Arduino Nano clone")) = true)
    as H by reflexivity.
  split; [exact H|].
  exact (name_containing_esp32 "My ESP32 Arduino Nano clone" H).
Defined.

End BoardPinoutsExtra.

(** ** Properties of the firmware assembler *)

Module FirmwareGenProps.
Import PyText PyTextFacts PyTextExtra FirmwareGen.

#[local] Arguments String.append !_ _ / : simpl nomatch.

(** *** [_add_platform_headers] *)

Lemma lower_never_has_include code :
  contains arduino_include (lower code) = false.
Proof.
  destruct (contains arduino_include (lower code)) eqn:E; [|done].
  pose proof (contains_all_chars _ _ _ E (lower_has_no_capital_A code)) as H.
  discriminate H.
Qed.

Lemma add_platform_headers_contains code board_type :
  contains arduino_include (_add_platform_headers code board_type) = true.
Proof.
  unfold _add_platform_headers. rewrite lower_never_has_include.
  destruct (contains arduino_include code) eqn:E; cbn [negb andb]; [done|].
  destruct (Nat.eqb _ 0).
  - apply contains_prefix.
  - apply join_contains.
Qed.

Lemma add_platform_headers_id code board_type :
  contains arduino_include code = true ->
  _add_platform_headers code board_type = code.
Proof. intros H. unfold _add_platform_headers. by rewrite H. Qed.

(** X18. [_add_platform_headers] always returns a text that contains the
    line [#include <Arduino.h>], and it returns the code unchanged exactly
    when the code already contains that text, so applying it twice is the
    same as applying it once. Its second test, on the lower-cased code,
    never finds the text, which has a capital A: a code that includes
    [<arduino.h>] in another case still gets the line added. *)
Theorem add_platform_headers_once code board_type board_type' :
  contains arduino_include (_add_platform_headers code board_type) = true /\
  (_add_platform_headers code board_type = code <->
   contains arduino_include code = true) /\
  _add_platform_headers (_add_platform_headers code board_type) board_type'
  = _add_platform_headers code board_type /\
  contains arduino_include (lower code) = false.
Proof.
  split; [apply add_platform_headers_contains|]. split; [|split].
  - split.
    + intros H. rewrite <- H. apply add_platform_headers_contains.
    + apply add_platform_headers_id.
  - apply add_platform_headers_id, add_platform_headers_contains.
  - apply lower_never_has_include.
Qed.

(** *** [_add_build_comment] *)

Lemma build_in_comment : contains "Build:" "// Build:" = true.
Proof. reflexivity. Qed.

Lemma add_build_comment_eq code board_type :
  _add_build_comment code board_type
  = if contains "Build:" code then code else code +:+ build_comment board_type.
Proof.
  unfold _add_build_comment.
  destruct (contains "Build:" code) eqn:E; [by rewrite andb_false_r|].
  destruct (contains "// Build:" code) eqn:E2; [|done].
  pose proof (contains_trans _ _ _ build_in_comment E2). congruence.
Qed.

Lemma build_comment_contains board_type :
  contains "Build:" (build_comment board_type) = true.
Proof.
  unfold build_comment. do 2 apply contains_app_r.
  apply contains_app_l. reflexivity.
Qed.

Lemma add_build_comment_contains code board_type :
  contains "Build:" (_add_build_comment code board_type) = true.
Proof.
  rewrite add_build_comment_eq.
  destruct (contains "Build:" code) eqn:E; [done|].
  apply contains_app_r, build_comment_contains.
Qed.

(** X19. [_add_build_comment] leaves a code that contains [Build:] as it is
    and appends the build comment to any other code (its first test, for
    [// Build:], adds nothing to the second). The result always contains
    [Build:], so applying it twice is the same as applying it once; the
    comment names the PlatformIO board of the board type, and [esp32dev]
    for a board type without a configuration. *)
Theorem add_build_comment_once code board_type board_type' :
  _add_build_comment code board_type
  = (if contains "Build:" code then code else code +:+ build_comment board_type) /\
  contains "Build:" (_add_build_comment code board_type) = true /\
  _add_build_comment (_add_build_comment code board_type) board_type'
  = _add_build_comment code board_type /\
  (BOARD_CONFIGS !! board_type = None ->
   build_comment board_type = build_comment "esp32").
Proof.
  split; [apply add_build_comment_eq|].
  split; [apply add_build_comment_contains|]. split.
  - rewrite (add_build_comment_eq (_add_build_comment _ _)).
    by rewrite add_build_comment_contains.
  - intros H. unfold build_comment, board_config. by rewrite H.
Qed.

Lemma add_build_comment_once_witness :
  BOARD_CONFIGS !! "stm32" = None /\
  build_comment "stm32" = build_comment "esp32".
Proof.
  assert (BOARD_CONFIGS !! "stm32" = None) as H by (vm_compute; reflexivity).
  split; [exact H|].
  exact (proj2 (proj2 (proj2 (add_build_comment_once "" "stm32" "stm32"))) H).
Defined.

(** *** [_detect_dependencies] *)

(** X20. [_detect_dependencies] lists a servo library exactly when the code
    contains [#include] and [Servo.h] (the test for [Servo] adds nothing),
    and it is ESP32Servo exactly when the lower-cased code contains
    [esp32] (the test for [ESP32] adds nothing), Servo otherwise; then Wire
    when the code contains [Wire.h] and SPI when it contains [SPI.h]. The
    board type plays no part, and the two servo libraries are never listed
    together. *)
Theorem detect_dependencies_shape code :
  _detect_dependencies code
  = (if contains "#include" code && contains "Servo.h" code
     then [if contains "esp32" (lower code) then "ESP32Servo" else "Servo"]
     else []) ++
    (if contains "Wire.h" code then ["Wire"] else []) ++
    (if contains "SPI.h" code then ["SPI"] else []).
Proof.
  unfold _detect_dependencies. f_equal.
  assert (contains "Servo.h" code = true -> contains "Servo" code = true) as H1.
  { apply contains_trans. reflexivity. }
  assert (contains "ESP32" code = true -> contains "esp32" (lower code) = true)
    as H2.
  { intros H. apply (contains_lower "ESP32"). done. }
  destruct (contains "Servo.h" code); [rewrite H1 by done|];
    destruct (contains "#include" code); simpl;
    rewrite ?andb_false_r; try done.
  destruct (contains "ESP32" code); [by rewrite H2|done].
Qed.

(** *** [assemble] *)

(** X21. The main file [assemble] returns always contains the line
    [#include <Arduino.h>] and a [Build:] comment, and running the two
    polishing steps on it again changes nothing; the returned dependencies
    are the ones detected in the code of the package, before the polish. *)
Theorem assemble_main_cpp_polished upper firmware_package board_type resolved_pins b1 b2 :
  let r := assemble upper firmware_package board_type resolved_pins in
  contains arduino_include (main_cpp r) = true /\
  contains "Build:" (main_cpp r) = true /\
  _add_build_comment (_add_platform_headers (main_cpp r) b1) b2 = main_cpp r /\
  cf_dependencies r = _detect_dependencies (fp_code firmware_package).
Proof.
  intros r. unfold r, assemble. cbn [main_cpp cf_dependencies].
  set (c := _add_platform_headers (fp_code firmware_package) board_type).
  assert (contains arduino_include (_add_build_comment c board_type) = true) as Hi.
  { rewrite add_build_comment_eq. destruct (contains "Build:" c).
    - apply add_platform_headers_contains.
    - apply contains_app_l, add_platform_headers_contains. }
  split; [done|]. split; [apply add_build_comment_contains|]. split; [|done].
  rewrite (add_platform_headers_id _ _ Hi).
  rewrite (add_build_comment_eq (_add_build_comment _ _)).
  by rewrite add_build_comment_contains.
Qed.


(** *** Where the include line goes *)




End FirmwareGenProps.
